(** * redistore: a session store backed by redis

    A shallow embedding of [redistore.go] (package [redistore]) and the
    properties of its session lifecycle: [New], [Save], [Delete], the
    serializers and the configuration setters.

    Conventions of the embedding.
    - A Go [int] / [int64] is a [Z]; the only arithmetic of the file, the
      conversion of seconds into a [time.Duration], has its 64-bit
      wrap-around written out.
    - A [[]byte] is a [list Byte.byte]; a [nil] slice is [None] where the
      code tests for it.
    - A Go [map] is a [gmap]; a [range] loop over a map walks
      [map_to_list].
    - A Go [error] result is an [option error] ([None] is [nil]); a pair
      [(x, err)] whose [x] is meaningless when [err != nil] is a sum.
    - Pointers to a [Session] are explicit state passing: a method that
      mutates its session returns the new one.
    - Packages that are not part of this repository ([encoding/json],
      [encoding/gob], [securecookie], the redis client) are interfaces:
      type classes whose methods the theorems quantify over.
    - What [fmt.Printf] writes on standard output is not part of the
      model. *)

From Stdlib Require Import ZArith Strings.Byte Strings.Ascii.
From stdpp Require Import base gmap strings list fin_maps.

Set Warnings "-register-all".

Abbreviation bytes := (list Byte.byte).

(** ** Go values *)

(** The dynamic values an [interface{}] holds in a session payload:
    [nil], [bool], [int], [float64] (as its IEEE-754 bit pattern),
    [string], [[]interface{}] and [map[string]interface{}]. *)
Inductive value : Type :=
| VNil
| VBool (b : bool)
| VInt (n : Z)
| VFloat64 (bits : Z)
| VString (s : string)
| VSlice (l : list value)
| VMap (m : list (string * value)).

(** The keys of [map[interface{}]interface{}]: only comparable dynamic
    types can be inserted in a Go map. A [float64] key is its IEEE-754
    bit pattern; the code reaches such a key only through [range] and
    [delete]. *)
Inductive key : Type :=
| KString (s : string)
| KInt (n : Z)
| KBool (b : bool)
| KFloat64 (bits : Z).

#[global] Instance key_eq_dec : EqDecision key.
Proof. solve_decision. Defined.

#[global] Instance key_countable : Countable key.
Proof.
  refine (inj_countable'
    (λ k, match k with
          | KString s => inl s
          | KInt n => inr (inl n)
          | KBool b => inr (inr (inl b))
          | KFloat64 bits => inr (inr (inr bits))
          end)
    (λ x, match x with
          | inl s => KString s
          | inr (inl n) => KInt n
          | inr (inr (inl b)) => KBool b
          | inr (inr (inr bits)) => KFloat64 bits
          end) _).
  by intros [].
Defined.

(** [k.(string)]: the type assertion of [JSONSerializer.Serialize]. *)
Definition as_string (k : key) : option string :=
  match k with
  | KString s => Some s
  | _ => None
  end.

(** IEEE-754 [==] on binary64 bit patterns: a NaN equals nothing, the two
    zeros are equal. *)
Definition f64_is_nan (b : Z) : bool :=
  (Z.land (Z.shiftr b 52) 2047 =? 2047)%Z && negb (Z.land b (2 ^ 52 - 1) =? 0)%Z.

Definition f64_is_zero (b : Z) : bool := (Z.land b (2 ^ 63 - 1) =? 0)%Z.

Definition float64_eq (x y : Z) : bool :=
  if f64_is_nan x || f64_is_nan y then false
  else if f64_is_zero x && f64_is_zero y then true
  else (x =? y)%Z.

(** Go's [==] on two [interface{}] values. Different dynamic types are
    unequal; identical dynamic types that are not comparable (slices,
    maps) cause a run-time panic, which is [None]. *)
Definition iface_eq (a b : value) : option bool :=
  match a, b with
  | VNil, VNil => Some true
  | VBool x, VBool y => Some (eqb x y)
  | VInt x, VInt y => Some (x =? y)%Z
  | VFloat64 x, VFloat64 y => Some (float64_eq x y)
  | VString x, VString y => Some (String.eqb x y)
  | VSlice _, VSlice _ => None
  | VMap _, VMap _ => None
  | _, _ => Some false
  end.

(** [a != b]. *)
Definition iface_neq (a b : value) : option bool := negb <$> iface_eq a b.

(** [m[k]] on a [map[interface{}]interface{}]: the zero value [nil] when
    the key is absent. *)
Definition index (m : gmap key value) (k : key) : value := default VNil (m !! k).

(** ** Errors *)

Inductive error : Type :=
| redis_Nil                   (* the sentinel [redis.Nil] *)
| ErrNonStringKey (k : key)   (* "Non-string key value, cannot serialize session to JSON: %v" *)
| ErrTooBig                   (* "SessionStore: the value to store is too big" *)
| ErrExternal (msg : string). (* an error made by a collaborator *)

Definition is_redis_Nil (e : error) : bool :=
  match e with
  | redis_Nil => true
  | _ => false
  end.

(** ** Time *)

Definition wrap64 (z : Z) : Z := ((z + 2 ^ 63) mod 2 ^ 64 - 2 ^ 63)%Z.

(** [time.Duration(age) * time.Second]: an [int64] count of nanoseconds. *)
Definition seconds (age : Z) : Z := wrap64 (wrap64 age * 1000000000).

(** [var sessionExpire = 86400 * 3000] *)
Definition sessionExpire : Z := 86400 * 3000.

(** ** Structures of [gorilla/sessions], [securecookie] and [net/http] *)

(** [sessions.Options] *)
Module Options.
Record t : Type := mk {
  Path : string;
  Domain : string;
  MaxAge : Z;
  Secure : bool;
  HttpOnly : bool
}.

Definition set_MaxAge (v : Z) (o : t) : t :=
  mk (Path o) (Domain o) v (Secure o) (HttpOnly o).

(** [new(Options)] *)
Definition zero : t := mk "" "" 0 false false.
End Options.

(** [sessions.Session] *)
Module Session.
Record t : Type := mk {
  ID : string;
  Values : gmap key value;
  Options : Options.t;
  IsNew : bool;
  name : string
}.

Definition set_ID (v : string) (s : t) : t :=
  mk v (Values s) (Options s) (IsNew s) (name s).
Definition set_Values (v : gmap key value) (s : t) : t :=
  mk (ID s) v (Options s) (IsNew s) (name s).
Definition set_Options (v : Options.t) (s : t) : t :=
  mk (ID s) (Values s) v (IsNew s) (name s).
Definition set_IsNew (v : bool) (s : t) : t :=
  mk (ID s) (Values s) (Options s) v (name s).

(** [session.Name()] *)
Definition Name (s : t) : string := name s.
End Session.

(** [sessions.NewSession(store, name)] *)
Definition NewSession (name : string) : Session.t :=
  Session.mk "" ∅ Options.zero false name.

(** [SessionInfo]: what the cookie carries. *)
Module SessionInfo.
Record t : Type := mk {
  ID : string;
  CreateTime : value
}.
End SessionInfo.

(** [http.Cookie], the fields [sessions.NewCookie] fills from the options.
    [Expires] is set by [NewCookie] from the clock and the sign of
    [MaxAge]; it is left out. *)
Module Cookie.
Record t : Type := mk {
  Name : string;
  Value : string;
  Path : string;
  Domain : string;
  MaxAge : Z;
  Secure : bool;
  HttpOnly : bool
}.
End Cookie.

(** [sessions.NewCookie(name, value, options)] *)
Definition NewCookie (name value : string) (o : Options.t) : Cookie.t :=
  Cookie.mk name value (Options.Path o) (Options.Domain o) (Options.MaxAge o)
    (Options.Secure o) (Options.HttpOnly o).

(** An [http.ResponseWriter], seen as the cookies handed to
    [http.SetCookie], oldest first. *)
Definition ResponseWriter : Type := list Cookie.t.

Definition SetCookie (w : ResponseWriter) (c : Cookie.t) : ResponseWriter := w ++ [c].

(** An [*http.Request], seen as its cookies, name and value. *)
Definition Request : Type := list (string * string).

(** [r.Cookie(name)], for a name that is not empty: the first cookie
    with that name, [http.ErrNoCookie] otherwise. *)
Fixpoint Request_Cookie (r : Request) (name : string) : error + string :=
  match r with
  | [] => inl (ErrExternal "http: named cookie not present")
  | (n, v) :: r' => if String.eqb n name then inr v else Request_Cookie r' name
  end.

(** [*securecookie.SecureCookie]: the keys and the maximum age its
    [Decode] enforces. *)
Module SecureCookie.
Record t : Type := mk {
  hashKey : bytes;
  blockKey : bytes;
  maxAge : Z
}.

(** [func (s *SecureCookie) MaxAge(value int) *SecureCookie] *)
Definition MaxAge (v : Z) (c : t) : t := mk (hashKey c) (blockKey c) v.
End SecureCookie.

(** A [securecookie.Codec] is an interface; [SetMaxAge] tells a
    [*SecureCookie] from every other implementation, which exposes
    [Encode] and [Decode] only. *)
Inductive Codec : Type :=
| CodecSecureCookie (c : SecureCookie.t)
| CodecOther (impl : string).

(** ** The collaborators *)

(** The functions of [encoding/json], [encoding/gob] and [securecookie]
    the store calls. [json.Unmarshal] and [gob]'s [Decode] fill the map
    they are given; [securecookie.DecodeMulti] fills a zero
    [SessionInfo]. *)
Class Libraries : Type := {
  json_Marshal : gmap string value → error + bytes;
  json_Unmarshal : bytes → gmap string value → gmap string value * option error;
  gob_Encode : gmap key value → error + bytes;
  gob_Decode : bytes → gmap key value → gmap key value * option error;
  securecookie_DecodeMulti : string → string → list Codec → error + SessionInfo.t;
  securecookie_EncodeMulti : string → SessionInfo.t → list Codec → error + string;
  securecookie_CodecsFromPairs : list bytes → list Codec
}.

(** The commands of [redis.Cmdable] the store issues. *)
Inductive Cmd : Type :=
| CmdGet (k : string)
| CmdSet (k : string) (val : bytes) (expiration : Z)
| CmdDel (k : string).

(** [redis.Cmdable] over a server state [R]: [Get(k).Bytes()],
    [Set(k, v, expiration).Err()] and [Del(k).Err()]. *)
Class Cmdable (R : Type) : Type := {
  redis_Get : string → R → (option bytes * option error) * R;
  redis_Set : string → bytes → Z → R → option error * R;
  redis_Del : string → R → option error * R
}.

(** The pool of a store: the server behind it and the commands sent so
    far, oldest first. *)
Record Conn (R : Type) : Type := mkConn {
  server : R;
  calls : list Cmd
}.
Arguments mkConn {R} _ _.
Arguments server {R} _.
Arguments calls {R} _.

(** A computation that talks to the pool. *)
Definition Redis (R A : Type) : Type := Conn R → A * Conn R.

Section pool.
Context {R : Type} `{!Cmdable R}.

Definition Pool_Get (k : string) : Redis R (option bytes * option error) := λ c,
  let '(res, srv) := redis_Get k (server c) in
  (res, mkConn srv (calls c ++ [CmdGet k])).

Definition Pool_Set (k : string) (b : bytes) (expiration : Z) : Redis R (option error) := λ c,
  let '(err, srv) := redis_Set k b expiration (server c) in
  (err, mkConn srv (calls c ++ [CmdSet k b expiration])).

Definition Pool_Del (k : string) : Redis R (option error) := λ c,
  let '(err, srv) := redis_Del k (server c) in
  (err, mkConn srv (calls c ++ [CmdDel k])).
End pool.

(** Whether a command writes a record. *)
Definition is_Set (c : Cmd) : bool :=
  match c with
  | CmdSet _ _ _ => true
  | _ => false
  end.

(** ** Serializers *)

(** [SessionSerializer], the interface. *)
Record SessionSerializer : Type := mkSerializer {
  Deserialize : bytes → Session.t → Session.t * option error;
  Serialize : Session.t → error + bytes;
  SerializeData : gmap string value → error + bytes;
  DeserializeData : bytes → gmap string value → gmap string value * option error
}.

(** [len(b)] *)
Definition len (b : bytes) : Z := Z.of_nat (length b).

Module JSONSerializer.
Section with_libraries.
Context `{!Libraries}.

Definition SerializeData (data : gmap string value) : error + bytes :=
  json_Marshal data.

Definition DeserializeData (d : bytes) (m : gmap string value)
  : gmap string value * option error :=
  json_Unmarshal d m.

(** The loop of [Serialize]: [m[ks] = v] for every entry, leaving at
    the first key that is not a string. *)
Fixpoint string_keyed (kvs : list (key * value)) (m : gmap string value)
  : error + gmap string value :=
  match kvs with
  | [] => inr m
  | (k, v) :: kvs' =>
      match as_string k with
      | Some ks => string_keyed kvs' (<[ks := v]> m)
      | None => inl (ErrNonStringKey k)
      end
  end.

Definition Serialize (ss : Session.t) : error + bytes :=
  match string_keyed (map_to_list (Session.Values ss)) ∅ with
  | inl err => inl err
  | inr m => SerializeData m
  end.

(** The loop of [Deserialize]: [ss.Values[k] = v] for every entry. *)
Definition merge_into (vals : gmap key value) (kvs : list (string * value))
  : gmap key value :=
  foldl (λ acc kv, <[KString kv.1 := kv.2]> acc) vals kvs.

Definition Deserialize (d : bytes) (ss : Session.t) : Session.t * option error :=
  match DeserializeData d ∅ with
  | (_, Some err) => (ss, Some err)
  | (m, None) =>
      (Session.set_Values (merge_into (Session.Values ss) (map_to_list m)) ss, None)
  end.

(** [JSONSerializer{}] as a [SessionSerializer]. *)
Definition it : SessionSerializer :=
  mkSerializer Deserialize Serialize SerializeData DeserializeData.
End with_libraries.
End JSONSerializer.

(** [GobSerializer] has the two session methods only. *)
Module GobSerializer.
Section with_libraries.
Context `{!Libraries}.

Definition Serialize (ss : Session.t) : error + bytes :=
  match gob_Encode (Session.Values ss) with
  | inr b => inr b
  | inl err => inl err
  end.

(** [dec.Decode(&ss.Values)] *)
Definition Deserialize (d : bytes) (ss : Session.t) : Session.t * option error :=
  let '(vals, err) := gob_Decode d (Session.Values ss) in
  (Session.set_Values vals ss, err).
End with_libraries.
End GobSerializer.

(** ** The store *)

(** What a call returns, unless it panics. *)
Inductive outcome (A : Type) : Type :=
| Returns (a : A)
| Panics.
Arguments Returns {A} _.
Arguments Panics {A}.

Definition is_nil (err : option error) : bool :=
  match err with
  | None => true
  | Some _ => false
  end.

(** [k == k] on a key: false for a NaN, which is equal to nothing. *)
Definition key_equals_itself (k : key) : bool :=
  match k with
  | KFloat64 bits => negb (f64_is_nan bits)
  | _ => true
  end.

(** The built-in [delete(m, k)]: it removes the entry whose key is equal
    to [k], and so does nothing when [k] is a NaN. *)
Definition map_delete (k : key) (m : gmap key value) : gmap key value :=
  if key_equals_itself k then delete k m else m.

(** [for k := range m { delete(m, k) }] *)
Definition clear_values (m : gmap key value) : gmap key value :=
  foldl (λ acc kv, map_delete kv.1 acc) m (map_to_list m).

Module RediStore.

(** [RediStore]. The [Pool] field is the [Conn] the methods thread. *)
Record t : Type := mk {
  Codecs : list Codec;
  Options : Options.t;
  DefaultMaxAge : Z;
  maxLength : Z;
  keyPrefix : string;
  serializer : SessionSerializer
}.

Definition SetMaxLength (l : Z) (s : t) : t :=
  if (l >=? 0)%Z
  then mk (Codecs s) (Options s) (DefaultMaxAge s) l (keyPrefix s) (serializer s)
  else s.

Definition SetKeyPrefix (p : string) (s : t) : t :=
  mk (Codecs s) (Options s) (DefaultMaxAge s) (maxLength s) p (serializer s).

Definition SetSerializer (ss : SessionSerializer) (s : t) : t :=
  mk (Codecs s) (Options s) (DefaultMaxAge s) (maxLength s) (keyPrefix s) ss.

(** One turn of the loop of [SetMaxAge], at index [i]. A codec that is
    not a [*SecureCookie] is reported on standard output and kept. *)
Definition SetMaxAge_at (v : Z) (codecs : list Codec) (i : nat) : list Codec :=
  match codecs !! i with
  | Some (CodecSecureCookie c) =>
      <[i := CodecSecureCookie (SecureCookie.MaxAge v c)]> codecs
  | _ => codecs
  end.

Definition SetMaxAge (v : Z) (s : t) : t :=
  mk (foldl (SetMaxAge_at v) (Codecs s) (seq 0 (length (Codecs s))))
     (Options.set_MaxAge v (Options s))
     (DefaultMaxAge s) (maxLength s) (keyPrefix s) (serializer s).

Section methods.
Context `{!Libraries} {R : Type} `{!Cmdable R}.

(** [NewRedisStoreWithPool(pool, keyPairs...)] *)
Definition NewRedisStoreWithPool (keyPairs : list bytes) : t :=
  mk (securecookie_CodecsFromPairs keyPairs)
     (Options.mk "/" "" sessionExpire false false)
     (60 * 20)
     4096
     "session_"
     JSONSerializer.it.

(** [save] stores the session in redis. *)
Definition save (s : t) (session : Session.t) : Redis R (option error) := λ c,
  match Serialize (serializer s) session with
  | inl err => (Some err, c)
  | inr b =>
      if negb (maxLength s =? 0)%Z && (len b >? maxLength s)%Z
      then (Some ErrTooBig, c)
      else
        let age := Options.MaxAge (Session.Options session) in
        let age := if (age =? 0)%Z then DefaultMaxAge s else age in
        Pool_Set (keyPrefix s +:+ Session.ID session) b (seconds age) c
  end.

(** [load] reads the session from redis. *)
Definition load (s : t) (session : Session.t)
  : Redis R (Session.t * bool * option error) := λ c,
  match Pool_Get (keyPrefix s +:+ Session.ID session) c with
  | ((_, Some err), c) =>
      if is_redis_Nil err then ((session, false, None), c)
      else ((session, false, Some err), c)
  | ((None, None), c) => ((session, false, None), c)
  | ((Some data, None), c) =>
      let '(session, err) := Deserialize (serializer s) data session in
      ((session, true, err), c)
  end.

(** [delete] removes the key from redis. *)
Definition delete (s : t) (session : Session.t) : Redis R (option error) :=
  Pool_Del (keyPrefix s +:+ Session.ID session).

Definition Store (s : t) (ID : string) (data : gmap string value)
  : Redis R (option error) := λ c,
  match SerializeData (serializer s) data with
  | inl err => (Some err, c)
  | inr b =>
      if negb (maxLength s =? 0)%Z && (len b >? maxLength s)%Z
      then (Some ErrTooBig, c)
      else Pool_Set (keyPrefix s +:+ ID) b (seconds sessionExpire) c
  end.

(** [data] is a pointer: [None] is [nil]. *)
Definition Load (s : t) (ID : string) (data : option (gmap string value))
  : Redis R (option (gmap string value) * bool * option error) := λ c,
  match Pool_Get (keyPrefix s +:+ ID) c with
  | ((_, Some err), c) =>
      if is_redis_Nil err then ((data, false, None), c)
      else ((data, false, Some err), c)
  | ((d, None), c) =>
      match data with
      | None => ((None, false, None), c)
      | Some m =>
          let '(m, err) := DeserializeData (serializer s) (default [] d) m in
          ((Some m, true, err), c)
      end
  end.

(** [New] returns a session for the given name. *)
Definition New (s : t) (r : Request) (name : string)
  : Redis R (outcome (Session.t * option error)) := λ c,
  let session := NewSession name in
  let options := Options s in
  let session := Session.set_Options options session in
  let session := Session.set_IsNew true session in
  match Request_Cookie r name with
  | inl _ => (Returns (session, None), c)
  | inr cookie_value =>
      match securecookie_DecodeMulti name cookie_value (Codecs s) with
      | inl err => (Returns (session, Some err), c)
      | inr sessionInfo =>
          let session := Session.set_ID (SessionInfo.ID sessionInfo) session in
          let '((session, ok, err), c) := load s session c in
          if is_nil err && ok then
            let createdTimeV := index (Session.Values session) (KString "created_time") in
            match iface_neq createdTimeV (SessionInfo.CreateTime sessionInfo) with
            | None => (Panics, c)
            | Some true =>
                let session := Session.set_Values ∅ session in
                (Returns (Session.set_IsNew true session, err), c)
            | Some false => (Returns (Session.set_IsNew false session, err), c)
            end
          else
            (Returns (Session.set_IsNew (negb (is_nil err && ok)) session, err), c)
      end
  end.

(** [Save] adds a single session to the response. [now] is
    [time.Now().Format("20060102150405")] and [fresh_id] the
    base32 text of [securecookie.GenerateRandomKey(32)] without its
    padding, both as the call finds them. *)
Definition Save (s : t) (now fresh_id : string) (r : Request)
    (w : ResponseWriter) (session : Session.t)
  : Redis R (ResponseWriter * Session.t * option error) := λ c,
  if (Options.MaxAge (Session.Options session) <=? 0)%Z then
    match delete s session c with
    | (Some err, c) => ((w, session, Some err), c)
    | (None, c) =>
        ((SetCookie w (NewCookie (Session.Name session) "" (Session.Options session)),
          session, None), c)
    end
  else
    let session :=
      if String.eqb (Session.ID session) "" then Session.set_ID fresh_id session
      else session in
    let '(createdTime, session) :=
      match Session.Values session !! KString "created_time" with
      | Some v => (v, session)
      | None =>
          (VString now,
           Session.set_Values
             (<[KString "created_time" := VString now]> (Session.Values session))
             session)
      end in
    match save s session c with
    | (Some err, c) => ((w, session, Some err), c)
    | (None, c) =>
        match securecookie_EncodeMulti (Session.Name session)
                (SessionInfo.mk (Session.ID session) createdTime) (Codecs s) with
        | inl err => ((w, session, Some err), c)
        | inr encoded =>
            ((SetCookie w (NewCookie (Session.Name session) encoded
                             (Session.Options session)),
              session, None), c)
        end
    end.

(** [Delete] removes the session from redis, and sets the cookie to
    expire. *)
Definition Delete (s : t) (r : Request) (w : ResponseWriter) (session : Session.t)
  : Redis R (ResponseWriter * Session.t * option error) := λ c,
  match Pool_Del (keyPrefix s +:+ Session.ID session) c with
  | (Some err, c) => ((w, session, Some err), c)
  | (None, c) =>
      let options := Options.set_MaxAge (-1) (Session.Options session) in
      let w := SetCookie w (NewCookie (Session.Name session) "" options) in
      let session := Session.set_Values (clear_values (Session.Values session)) session in
      ((w, session, None), c)
  end.
End methods.
End RediStore.

(** ** The setters, as a transition system *)

(** The calls that reach the configuration of a store. *)
Inductive setter : Type :=
| CallSetMaxLength (l : Z)
| CallSetKeyPrefix (p : string)
| CallSetSerializer (ss : SessionSerializer)
| CallSetMaxAge (v : Z).

Definition call (s : RediStore.t) (op : setter) : RediStore.t :=
  match op with
  | CallSetMaxLength l => RediStore.SetMaxLength l s
  | CallSetKeyPrefix p => RediStore.SetKeyPrefix p s
  | CallSetSerializer ss => RediStore.SetSerializer ss s
  | CallSetMaxAge v => RediStore.SetMaxAge v s
  end.

(** The maximum age a codec is known to enforce: a codec that is not a
    [*SecureCookie] has no setting the store can read or write. *)
Definition codec_maxAge (c : Codec) : option Z :=
  match c with
  | CodecSecureCookie sc => Some (SecureCookie.maxAge sc)
  | CodecOther _ => None
  end.

(** What a turn of the loop of [SetMaxAge] does to one codec. *)
Definition with_maxAge (v : Z) (c : Codec) : Codec :=
  match c with
  | CodecSecureCookie sc => CodecSecureCookie (SecureCookie.MaxAge v sc)
  | CodecOther impl => CodecOther impl
  end.

(** ** Test doubles *)

(** Stand-ins for the collaborators, to run the store on concrete
    requests. *)
Module Double.

(** An in-memory server: the records with their expiration, and the
    error every command meets while the connection is down. *)
Record Server : Type := mkServer {
  records : gmap string (bytes * Z);
  down : option error
}.

Definition Get (k : string) (r : Server) : (option bytes * option error) * Server :=
  match down r with
  | Some e => ((None, Some e), r)
  | None =>
      match records r !! k with
      | Some (b, _) => ((Some b, None), r)
      | None => ((None, Some redis_Nil), r)
      end
  end.

Definition Set_ (k : string) (b : bytes) (expiration : Z) (r : Server)
  : option error * Server :=
  match down r with
  | Some e => (Some e, r)
  | None => (None, mkServer (<[k := (b, expiration)]> (records r)) None)
  end.

Definition Del (k : string) (r : Server) : option error * Server :=
  match down r with
  | Some e => (Some e, r)
  | None => (None, mkServer (delete k (records r)) None)
  end.

Definition cmdable : Cmdable Server := Build_Cmdable Server Get Set_ Del.

(** A codec for payloads whose values are strings: the number of
    entries, then for each entry the length of the key, the key, the
    length of the value, the value. Each count is one byte. *)
Definition put_text (s : string) : option bytes :=
  match Byte.of_nat (String.length s) with
  | Some n => Some (n :: String.list_byte_of_string s)
  | None => None
  end.

Fixpoint put_entries (kvs : list (string * value)) : option bytes :=
  match kvs with
  | [] => Some []
  | (k, VString v) :: kvs' =>
      match put_text k, put_text v, put_entries kvs' with
      | Some bk, Some bv, Some rest => Some (bk ++ bv ++ rest)
      | _, _, _ => None
      end
  | _ => None
  end.

Definition get_text (b : bytes) : option (string * bytes) :=
  match b with
  | [] => None
  | n :: b' =>
      if decide (Byte.to_nat n ≤ length b')
      then Some (String.string_of_list_byte (take (Byte.to_nat n) b'),
                 drop (Byte.to_nat n) b')
      else None
  end.

Fixpoint get_entries (n : nat) (b : bytes) : option (list (string * value)) :=
  match n with
  | O =>
      match b with
      | [] => Some []
      | _ => None
      end
  | S n' =>
      match get_text b with
      | Some (k, b1) =>
          match get_text b1 with
          | Some (v, b2) =>
              match get_entries n' b2 with
              | Some rest => Some ((k, VString v) :: rest)
              | None => None
              end
          | None => None
          end
      | None => None
      end
  end.

Definition flat_encode (kvs : list (string * value)) : error + bytes :=
  match Byte.of_nat (length kvs), put_entries kvs with
  | Some n, Some body => inr (n :: body)
  | _, _ => inl (ErrExternal "flat: unsupported payload")
  end.

Definition flat_decode (b : bytes) : error + list (string * value) :=
  match b with
  | [] => inl (ErrExternal "flat: unexpected end of input")
  | n :: body =>
      match get_entries (Byte.to_nat n) body with
      | Some kvs => inr kvs
      | None => inl (ErrExternal "flat: malformed input")
      end
  end.

Definition Marshal (m : gmap string value) : error + bytes :=
  flat_encode (map_to_list m).

Definition Unmarshal (b : bytes) (m : gmap string value)
  : gmap string value * option error :=
  match flat_decode b with
  | inr kvs => (foldl (λ acc kv, <[kv.1 := kv.2]> acc) m kvs, None)
  | inl err => (m, Some err)
  end.

Definition key_text (kv : key * value) : option (string * value) :=
  match kv.1 with
  | KString s => Some (s, kv.2)
  | _ => None
  end.

Definition Encode (m : gmap key value) : error + bytes :=
  match mapM key_text (map_to_list m) with
  | Some kvs => flat_encode kvs
  | None => inl (ErrExternal "flat: unsupported key")
  end.

Definition Decode (b : bytes) (m : gmap key value) : gmap key value * option error :=
  match flat_decode b with
  | inr kvs => (foldl (λ acc kv, <[KString kv.1 := kv.2]> acc) m kvs, None)
  | inl err => (m, Some err)
  end.

(** Tokens in the clear: the session ID, a bar, the creation time. *)
Fixpoint split_bar (s : string) : option (string * string) :=
  match s with
  | EmptyString => None
  | String c s' =>
      if Ascii.eqb c "|"%char then Some (EmptyString, s')
      else (λ p, (String c p.1, p.2)) <$> split_bar s'
  end.

Definition DecodeMulti (name token : string) (codecs : list Codec)
  : error + SessionInfo.t :=
  match codecs with
  | [] => inl (ErrExternal "securecookie: no codecs provided")
  | _ =>
      match split_bar token with
      | Some (id, t) => inr (SessionInfo.mk id (VString t))
      | None => inl (ErrExternal "securecookie: the value is not valid")
      end
  end.

Definition EncodeMulti (name : string) (info : SessionInfo.t) (codecs : list Codec)
  : error + string :=
  match codecs, SessionInfo.CreateTime info with
  | [], _ => inl (ErrExternal "securecookie: no codecs provided")
  | _, VString t => inr (SessionInfo.ID info +:+ "|" +:+ t)
  | _, _ => inl (ErrExternal "securecookie: unsupported creation time")
  end.

Fixpoint CodecsFromPairs (keyPairs : list bytes) : list Codec :=
  match keyPairs with
  | [] => []
  | [h] => [CodecSecureCookie (SecureCookie.mk h [] (86400 * 30))]
  | h :: b :: rest =>
      CodecSecureCookie (SecureCookie.mk h b (86400 * 30)) :: CodecsFromPairs rest
  end.

Definition libraries : Libraries :=
  Build_Libraries Marshal Unmarshal Encode Decode DecodeMulti EncodeMulti CodecsFromPairs.

(** A store with one key pair, and a session of it. *)
Definition store : RediStore.t :=
  @RediStore.NewRedisStoreWithPool libraries
    [String.list_byte_of_string "hash-key"; String.list_byte_of_string "block-key"].

Definition empty_server : Server := mkServer ∅ None.

Definition conn (srv : Server) : Conn Server := mkConn srv [].

Definition session (maxAge : Z) (vals : gmap key value) : Session.t :=
  Session.mk "S1" vals (Options.set_MaxAge maxAge (RediStore.Options store)) false "sid".

Definition New := @RediStore.New libraries Server cmdable.
Definition Save := @RediStore.Save libraries Server cmdable.
Definition Delete := @RediStore.Delete Server cmdable.

(** Payloads: one that [Save] has stamped, one of a user, one with a
    key that is not a string. *)
Definition stamped : gmap key value :=
  {[ KString "created_time" := VString "20200101000000" ]}.

Definition of_user : gmap key value :=
  {[ KString "user" := VString "alice";
     KString "created_time" := VString "20190101000000" ]}.

Definition odd_keys : gmap key value := {[ KInt 7 := VString "x" ]}.

(** The store with a maximum length of 10 bytes. *)
Definition small_store : RediStore.t := RediStore.SetMaxLength 10 store.

(** A server that cannot be reached. *)
Definition broken_server : Server :=
  mkServer ∅ (Some (ErrExternal "dial tcp: connection refused")).

(** The record of a payload, as [gob] and as JSON. *)
Definition record_of (vals : gmap key value) : bytes :=
  match Encode vals with
  | inr b => b
  | inl _ => []
  end.

(** A server that holds the payload [of_user] for the session [S1]. *)
Definition server_of_user : Server :=
  mkServer {[ "session_S1" := (record_of of_user, seconds 3600) ]} None.

(** Requests with a cookie for [S1], and with a cookie that no codec
    decodes. *)
Definition request_S1 : Request := [("sid", "S1|20200101000000")].

Definition request_forged : Request := [("sid", "forged")].

Definition clock : string := "20240101120000".

Definition fresh_id : string := "MFRGGZDFMZTWQ2LK".
End Double.

(** ** Reading the result of a call *)

Section results.
Context {R : Type}.

Definition response_of (x : (ResponseWriter * Session.t * option error) * Conn R)
  : ResponseWriter := x.1.1.1.
Definition session_of (x : (ResponseWriter * Session.t * option error) * Conn R)
  : Session.t := x.1.1.2.
Definition error_of (x : (ResponseWriter * Session.t * option error) * Conn R)
  : option error := x.1.2.
Definition conn_of (x : (ResponseWriter * Session.t * option error) * Conn R)
  : Conn R := x.2.

(** The records written through a pool so far. *)
Definition writes (c : Conn R) : list Cmd := List.filter is_Set (calls c).
End results.

(** The session as [Save] hands it to [save]: with an ID, and with its
    creation time in the payload. *)
Definition prepared (now fresh_id : string) (session : Session.t) : Session.t :=
  let session :=
    if String.eqb (Session.ID session) "" then Session.set_ID fresh_id session
    else session in
  match Session.Values session !! KString "created_time" with
  | Some _ => session
  | None =>
      Session.set_Values
        (<[KString "created_time" := VString now]> (Session.Values session)) session
  end.

(** ** Statements that are put to the test *)

Section statements.
Context `{!Libraries} {R : Type} `{!Cmdable R}.

(** The size bound, for a session of any maximum age. *)
Definition size_bound_of_every_session (s : RediStore.t) (now fresh_id : string)
    (r : Request) (w : ResponseWriter) (session : Session.t) (c : Conn R) : Prop :=
  ∀ b,
    RediStore.maxLength s ≠ 0%Z →
    Serialize (RediStore.serializer s) session = inr b →
    (len b > RediStore.maxLength s)%Z →
    let res := RediStore.Save s now fresh_id r w session c in
    error_of res = Some ErrTooBig ∧
    writes (conn_of res) = writes c ∧
    response_of res = w.


(** [Save] of a session whose maximum age is at most 0, with a cookie
    of negative maximum age. *)
Definition Save_nonpositive_expires_cookie (s : RediStore.t) (now fresh_id : string)
    (r : Request) (w : ResponseWriter) (session : Session.t) (c : Conn R) : Prop :=
  (Options.MaxAge (Session.Options session) ≤ 0)%Z →
  let k := RediStore.keyPrefix s +:+ Session.ID session in
  let res := RediStore.Save s now fresh_id r w session c in
  conn_of res = (Pool_Del k c).2 ∧
  error_of res = (Pool_Del k c).1 ∧
  (error_of res = None →
   ∃ ck, response_of res = w ++ [ck] ∧
         Cookie.Value ck = "" ∧ (Cookie.MaxAge ck < 0)%Z).

(** A payload with a key that is not a string, left as it was by
    [Save]. *)
Definition Save_keeps_rejected_payload (s : RediStore.t) (now fresh_id : string)
    (r : Request) (w : ResponseWriter) (session : Session.t) (c : Conn R) : Prop :=
  RediStore.serializer s = JSONSerializer.it →
  (∃ k, k ∈ dom (Session.Values session) ∧ as_string k = None) →
  (∃ e, JSONSerializer.Serialize session = inl e) ∧
  let res := RediStore.Save s now fresh_id r w session c in
  writes (conn_of res) = writes c ∧
  Session.Values (session_of res) = Session.Values session.
End statements.

(** [SetMaxAge] reaching every codec of the set. *)
Definition SetMaxAge_reaches_every_codec (v : Z) (s : RediStore.t) : Prop :=
  Options.MaxAge (RediStore.Options (RediStore.SetMaxAge v s)) = v ∧
  Forall (λ c, codec_maxAge c = Some v) (RediStore.Codecs (RediStore.SetMaxAge v s)).

(** ** What the store asks of the codecs *)

Section contracts.
Context `{!Libraries}.

(** [json.Unmarshal] into an empty map reads back what [json.Marshal]
    wrote, each value after the widening of JSON ([widen]: an [int]
    comes back as a [float64], and so on). *)
Definition json_round_trips (widen : value → value) : Prop :=
  ∀ m b, json_Marshal m = inr b → json_Unmarshal b ∅ = (widen <$> m, None).

(** [gob] decodes into an empty map the map it encoded. *)
Definition gob_round_trips : Prop :=
  ∀ m b, gob_Encode m = inr b → gob_Decode b ∅ = (m, None).
End contracts.

(** ** What the store asks of the server *)

Section server_contract.
Context {R : Type} `{!Cmdable R}.

(** A record that was written is the one that is read next under its
    key. *)
Definition reads_back_writes : Prop :=
  ∀ k b d r r', redis_Set k b d r = (None, r') → (redis_Get k r').1 = (Some b, None).
End server_contract.

(** The keys of the commands of a log. *)
Definition Cmd_key (cmd : Cmd) : string :=
  match cmd with
  | CmdGet k => k
  | CmdSet k _ _ => k
  | CmdDel k => k
  end.

Definition Cmd_keys (l : list Cmd) : list string := Cmd_key <$> l.

(** Whether two calls are calls of the same setter. *)
Definition same_setter (op1 op2 : setter) : bool :=
  match op1, op2 with
  | CallSetMaxLength _, CallSetMaxLength _ => true
  | CallSetKeyPrefix _, CallSetKeyPrefix _ => true
  | CallSetSerializer _, CallSetSerializer _ => true
  | CallSetMaxAge _, CallSetMaxAge _ => true
  | _, _ => false
  end.

(** Further inputs for the test doubles. *)
Module Fixture.

(** A store without codecs, as [NewRedisStoreWithPool(pool)] makes it. *)
Definition store_without_keys : RediStore.t :=
  @RediStore.NewRedisStoreWithPool Double.libraries [].

(** A server whose record for [S1] is cut short. *)
Definition server_with_garbage : Double.Server :=
  Double.mkServer {[ "session_S1" := (["003"%byte; "001"%byte], seconds 3600) ]} None.

(** A server that holds the payload [stamped] for the session [S1]. *)
Definition server_of_stamped : Double.Server :=
  Double.mkServer
    {[ "session_S1" := (Double.record_of Double.stamped, seconds 3600) ]} None.


(** A payload of twenty entries of 250 bytes each. *)
Definition long_text : string := String.concat "" (replicate 250 "x").

Definition album : gmap key value :=
  list_to_map
    ((λ i, (KString (String (ascii_of_nat (97 + i)) EmptyString), VString long_text))
       <$> seq 0 20).

(** A plain mapping for [Store] and [Load]. *)
Definition settings : gmap string value :=
  {[ "theme" := VString "dark"; "lang" := VString "en" ]}.

(** A session as [New] makes it for a request without cookie. *)
Definition new_session (s : RediStore.t) : Session.t :=
  Session.mk "" ∅ (RediStore.Options s) true "sid".

(** The session of a visitor before it is saved for the first time. *)
Definition visitor : Session.t :=
  Session.mk "" {[ KString "user" := VString "alice" ]}
    (Options.set_MaxAge 1800 (RediStore.Options Double.store)) true "sid".

Definition Store := @RediStore.Store Double.Server Double.cmdable.
Definition Load := @RediStore.Load Double.Server Double.cmdable.
Definition save := @RediStore.save Double.Server Double.cmdable.
End Fixture.

(** ** Creation times that cannot be compared *)

Section statement_of_New.
Context `{!Libraries} {R : Type} `{!Cmdable R}.

(** A loaded creation time that is not the one of the envelope, whatever
    their dynamic types, makes the session new and empty. *)
Definition stale_creation_time_resets (s : RediStore.t) (r : Request)
    (name : string) (c : Conn R) : Prop :=
  ∀ cookie_value info loaded c',
    Request_Cookie r name = inr cookie_value →
    securecookie_DecodeMulti name cookie_value (RediStore.Codecs s) = inr info →
    RediStore.load s
      (Session.mk (SessionInfo.ID info) ∅ (RediStore.Options s) true name) c
    = ((loaded, true, None), c') →
    index (Session.Values loaded) (KString "created_time")
    ≠ SessionInfo.CreateTime info →
    ∃ session err c'',
      RediStore.New s r name c = (Returns (session, err), c'') ∧
      Session.Values session = ∅ ∧
      Session.IsNew session = true.
End statement_of_New.

(** Doubles that know one record and one token whose creation times are
    slices: [["a"]] in the record, [["b"]] in the token. *)
Module Slices.

Definition record : bytes := String.list_byte_of_string "created_time=[a]".

Definition token : string := "S1|[b]".

Definition Unmarshal (b : bytes) (m : gmap string value)
  : gmap string value * option error :=
  if String.eqb (String.string_of_list_byte b) "created_time=[a]"
  then (<["created_time" := VSlice [VString "a"]]> m, None)
  else Double.Unmarshal b m.

Definition DecodeMulti (name tok : string) (codecs : list Codec)
  : error + SessionInfo.t :=
  if String.eqb tok token
  then inr (SessionInfo.mk "S1" (VSlice [VString "b"]))
  else Double.DecodeMulti name tok codecs.

Definition libraries : Libraries :=
  Build_Libraries Double.Marshal Unmarshal Double.Encode Double.Decode
    DecodeMulti Double.EncodeMulti Double.CodecsFromPairs.

Definition store : RediStore.t :=
  @RediStore.NewRedisStoreWithPool libraries
    [String.list_byte_of_string "hash-key"; String.list_byte_of_string "block-key"].

Definition server : Double.Server :=
  Double.mkServer {[ "session_S1" := (record, seconds 3600) ]} None.

Definition request : Request := [("sid", token)].

Definition New := @RediStore.New libraries Double.Server Double.cmdable.
End Slices.

(** * Properties *)

(** ** Comparison of interface values *)

(** Against a string, [!=] is the difference of the values: no panic,
    whatever the dynamic type on the other side. *)
Lemma iface_neq_string (a : value) (t : string) :
  iface_neq a (VString t) = Some true ↔ a ≠ VString t.
Proof.
  unfold iface_neq. destruct a as [| | | |s| |]; simpl; try (split; [done|done]).
  destruct (String.eqb_spec s t) as [->|Hne]; simpl.
  - split; [done|]. by intros [].
  - split; [|done]. intros _ [= ->]. by apply Hne.
Qed.

(** A NaN differs from itself. *)
Example iface_neq_NaN :
  iface_neq (VFloat64 0x7FF8000000000000) (VFloat64 0x7FF8000000000000) = Some true.
Proof. reflexivity. Qed.

(** Two slices cannot be compared. *)
Example iface_neq_slices : iface_neq (VSlice []) (VSlice []) = None.
Proof. reflexivity. Qed.

(** ** Configuration *)

Lemma SetMaxLength_negative (l : Z) (s : RediStore.t) :
  (l < 0)%Z → RediStore.SetMaxLength l s = s.
Proof.
  intros Hl. unfold RediStore.SetMaxLength.
  destruct (Z.geb_spec l 0) as [Hge|_]; [lia|done].
Qed.

Lemma call_preserves_maxLength_bound (s : RediStore.t) (op : setter) :
  (0 ≤ RediStore.maxLength s)%Z → (0 ≤ RediStore.maxLength (call s op))%Z.
Proof.
  intros Hs. destruct op as [l| | |]; simpl; try done.
  unfold RediStore.SetMaxLength.
  destruct (Z.geb_spec l 0); simpl; lia.
Qed.

Lemma calls_preserve_maxLength_bound (ops : list setter) (s : RediStore.t) :
  (0 ≤ RediStore.maxLength s)%Z → (0 ≤ RediStore.maxLength (foldl call s ops))%Z.
Proof.
  revert s. induction ops as [|op ops IH]; intros s Hs; simpl; [done|].
  apply IH, call_preserves_maxLength_bound, Hs.
Qed.

(** C10. [SetMaxLength] with a negative argument leaves the store as it
    is, and so leaves its maximum length unchanged; the maximum length of
    a new store is 4096; a setter applied to a store whose maximum
    length is at least 0 gives a store whose maximum length is at least
    0; hence the maximum length of a store made by
    [NewRedisStoreWithPool] and reconfigured by any sequence of setters is
    never negative. *)
Theorem maxLength_never_negative `{!Libraries} :
  (∀ l s, (l < 0)%Z →
     RediStore.SetMaxLength l s = s ∧
     RediStore.maxLength (RediStore.SetMaxLength l s) = RediStore.maxLength s) ∧
  (∀ keyPairs,
     RediStore.maxLength (RediStore.NewRedisStoreWithPool keyPairs) = 4096%Z) ∧
  (∀ s op, (0 ≤ RediStore.maxLength s)%Z → (0 ≤ RediStore.maxLength (call s op))%Z) ∧
  (∀ keyPairs ops,
     (0 ≤ RediStore.maxLength
            (foldl call (RediStore.NewRedisStoreWithPool keyPairs) ops))%Z).
Proof.
  split_and!.
  - intros l s Hl. by rewrite SetMaxLength_negative.
  - done.
  - apply call_preserves_maxLength_bound.
  - intros keyPairs ops. apply calls_preserve_maxLength_bound. simpl. lia.
Qed.

Lemma maxLength_never_negative_witness :
  (-5 < 0)%Z ∧
  RediStore.SetMaxLength (-5) Double.store = Double.store ∧
  RediStore.maxLength (RediStore.SetMaxLength (-5) Double.store) = 4096%Z ∧
  (0 ≤ RediStore.maxLength
         (foldl call Double.store
            [CallSetMaxLength 10; CallSetMaxLength (-5); CallSetMaxAge 60]))%Z.
Proof.
  destruct (@maxLength_never_negative Double.libraries) as (Hneg & Hnew & _ & Hall).
  split; [lia|].
  destruct (Hneg (-5)%Z Double.store ltac:(lia)) as [Hsame Hlen].
  split; [exact Hsame|].
  split; [rewrite Hlen; apply Hnew|].
  apply (Hall [String.list_byte_of_string "hash-key"; String.list_byte_of_string "block-key"]).
Defined.

(** The loop of [SetMaxAge], after its first [n] turns. *)
Lemma SetMaxAge_loop (v : Z) (codecs : list Codec) (n : nat) :
  n ≤ length codecs →
  foldl (RediStore.SetMaxAge_at v) codecs (seq 0 n)
  = (with_maxAge v <$> take n codecs) ++ drop n codecs.
Proof.
  induction n as [|n IH]; intros Hn.
  - by rewrite take_0, drop_0.
  - rewrite seq_S, foldl_snoc, IH by lia. simpl.
    destruct (lookup_lt_is_Some_2 codecs n ltac:(lia)) as [c Hc].
    rewrite (take_S_r _ _ _ Hc), fmap_app, (drop_S _ _ _ Hc). simpl.
    assert (Hlen : length (with_maxAge v <$> take n codecs) = n).
    { rewrite length_fmap, length_take. lia. }
    unfold RediStore.SetMaxAge_at.
    rewrite lookup_app_r by lia. rewrite Hlen, Nat.sub_diag. simpl.
    destruct c as [sc|impl]; simpl.
    + rewrite insert_app_r_alt by lia. rewrite Hlen, Nat.sub_diag. simpl.
      by rewrite <- app_assoc.
    + by rewrite <- app_assoc.
Qed.

Lemma SetMaxAge_Codecs (v : Z) (s : RediStore.t) :
  RediStore.Codecs (RediStore.SetMaxAge v s) = with_maxAge v <$> RediStore.Codecs s.
Proof.
  simpl. rewrite SetMaxAge_loop by done.
  by rewrite take_ge, drop_ge, app_nil_r by done.
Qed.

(** C5, amended. After [SetMaxAge v] the maximum age of the store is [v],
    every codec of the set that is a [*SecureCookie] enforces [v] and
    keeps its keys and its place, and every other codec is the one it
    was. *)
Theorem SetMaxAge_reaches_secure_cookies (v : Z) (s : RediStore.t) :
  let s' := RediStore.SetMaxAge v s in
  Options.MaxAge (RediStore.Options s') = v ∧
  length (RediStore.Codecs s') = length (RediStore.Codecs s) ∧
  ∀ i,
    match RediStore.Codecs s !! i with
    | Some (CodecSecureCookie sc) =>
        RediStore.Codecs s' !! i
        = Some (CodecSecureCookie
                  (SecureCookie.mk (SecureCookie.hashKey sc) (SecureCookie.blockKey sc) v))
    | Some (CodecOther impl) => RediStore.Codecs s' !! i = Some (CodecOther impl)
    | None => RediStore.Codecs s' !! i = None
    end.
Proof.
  intros s'. subst s'. rewrite SetMaxAge_Codecs. split_and!.
  - done.
  - by rewrite length_fmap.
  - intros i. rewrite list_lookup_fmap.
    destruct (RediStore.Codecs s !! i) as [[sc|impl]|]; done.
Qed.

(** C5, as stated, fails on a codec set that holds a codec of another
    type: the loop leaves it alone. *)
Lemma SetMaxAge_skips_other_codecs :
  ¬ SetMaxAge_reaches_every_codec 3600
      (RediStore.mk
         [CodecSecureCookie (SecureCookie.mk [] [] 0); CodecOther "custom"]
         Options.zero 1200 4096 "session_" (@JSONSerializer.it Double.libraries)).
Proof.
  intros [_ Hall]. rewrite SetMaxAge_Codecs in Hall. simpl in Hall.
  apply Forall_cons in Hall as [_ Hall]. apply Forall_cons in Hall as [Hother _].
  discriminate Hother.
Qed.

(** ** The pool *)

Section pool_facts.
Context {R : Type} `{!Cmdable R}.

Lemma Pool_Del_calls (k : string) (c : Conn R) :
  calls (Pool_Del k c).2 = calls c ++ [CmdDel k].
Proof. unfold Pool_Del. by destruct (redis_Del k (server c)). Qed.

Lemma Pool_Del_writes (k : string) (c : Conn R) :
  writes (Pool_Del k c).2 = writes c.
Proof.
  unfold writes. rewrite Pool_Del_calls, List.filter_app. simpl.
  by rewrite app_nil_r.
Qed.

Lemma Pool_Set_calls (k : string) (b : bytes) (d : Z) (c : Conn R) :
  calls (Pool_Set k b d c).2 = calls c ++ [CmdSet k b d].
Proof. unfold Pool_Set. by destruct (redis_Set k b d (server c)). Qed.

Lemma Pool_Get_calls (k : string) (c : Conn R) :
  calls (Pool_Get k c).2 = calls c ++ [CmdGet k].
Proof. unfold Pool_Get. by destruct (redis_Get k (server c)). Qed.
End pool_facts.

(** ** [Save] *)

Section Save_facts.
Context `{!Libraries} {R : Type} `{!Cmdable R}.
Implicit Types (s : RediStore.t) (session : Session.t) (c : Conn R).

Lemma prepared_Options now fresh_id session :
  Session.Options (prepared now fresh_id session) = Session.Options session.
Proof.
  unfold prepared.
  destruct (String.eqb (Session.ID session) ""); simpl;
    by destruct (Session.Values session !! KString "created_time").
Qed.

Lemma prepared_Values now fresh_id session :
  Session.Values (prepared now fresh_id session)
  = match Session.Values session !! KString "created_time" with
    | Some _ => Session.Values session
    | None => <[KString "created_time" := VString now]> (Session.Values session)
    end.
Proof.
  unfold prepared.
  destruct (String.eqb (Session.ID session) ""); simpl;
    by destruct (Session.Values session !! KString "created_time").
Qed.

(** The branch of [Save] that deletes. *)
Lemma Save_nonpositive s now fresh_id r w session c :
  (Options.MaxAge (Session.Options session) ≤ 0)%Z →
  RediStore.Save s now fresh_id r w session c
  = match Pool_Del (RediStore.keyPrefix s +:+ Session.ID session) c with
    | (Some err, c') => ((w, session, Some err), c')
    | (None, c') =>
        ((SetCookie w (NewCookie (Session.Name session) "" (Session.Options session)),
          session, None), c')
    end.
Proof.
  intros Hage. unfold RediStore.Save, RediStore.delete.
  by destruct (Z.leb_spec (Options.MaxAge (Session.Options session)) 0); [|lia].
Qed.

(** The branch of [Save] that writes. *)
Lemma Save_positive s now fresh_id r w session c :
  (0 < Options.MaxAge (Session.Options session))%Z →
  RediStore.Save s now fresh_id r w session c
  = let p := prepared now fresh_id session in
    match RediStore.save s p c with
    | (Some err, c') => ((w, p, Some err), c')
    | (None, c') =>
        match securecookie_EncodeMulti (Session.Name p)
                (SessionInfo.mk (Session.ID p)
                   (index (Session.Values p) (KString "created_time")))
                (RediStore.Codecs s) with
        | inl err => ((w, p, Some err), c')
        | inr encoded =>
            ((SetCookie w (NewCookie (Session.Name p) encoded (Session.Options p)),
              p, None), c')
        end
    end.
Proof.
  intros Hage. unfold RediStore.Save, prepared, index.
  destruct (Z.leb_spec (Options.MaxAge (Session.Options session)) 0); [lia|].
  destruct (String.eqb (Session.ID session) ""); simpl;
    destruct (Session.Values session !! KString "created_time") as [v|] eqn:Hv;
    simpl; rewrite ?Hv, ?lookup_insert_eq; done.
Qed.

(** [save] refuses a record that is too big before it reaches the
    pool. *)
Lemma save_too_big s session c b :
  RediStore.maxLength s ≠ 0%Z →
  Serialize (RediStore.serializer s) session = inr b →
  (len b > RediStore.maxLength s)%Z →
  RediStore.save s session c = (Some ErrTooBig, c).
Proof.
  intros Hmax Hb Hlen. unfold RediStore.save. rewrite Hb.
  destruct (Z.eqb_spec (RediStore.maxLength s) 0); [done|].
  destruct (Z.gtb_spec (len b) (RediStore.maxLength s)); [done|lia].
Qed.

(** The expiration [save] asks for: the default maximum age of the
    store when the session has none. *)
Lemma save_expiration s session c b :
  Serialize (RediStore.serializer s) session = inr b →
  (RediStore.maxLength s = 0 ∨ len b ≤ RediStore.maxLength s)%Z →
  RediStore.save s session c
  = Pool_Set (RediStore.keyPrefix s +:+ Session.ID session) b
      (seconds (if (Options.MaxAge (Session.Options session) =? 0)%Z
                then RediStore.DefaultMaxAge s
                else Options.MaxAge (Session.Options session))) c.
Proof.
  intros Hb Hlen. unfold RediStore.save. rewrite Hb.
  destruct (Z.eqb_spec (RediStore.maxLength s) 0); [done|].
  destruct (Z.gtb_spec (len b) (RediStore.maxLength s)); [lia|done].
Qed.

(** C2, amended. When the maximum age of the session is positive, the
    maximum length of the store is not 0 and the record [Save]
    serializes (the session with its ID and its creation time) is
    longer than that maximum, [Save] returns the error of a value too
    big to store, sends no command to the server and sets no cookie. *)
Theorem Save_rejects_oversized s now fresh_id r w session c b :
  (0 < Options.MaxAge (Session.Options session))%Z →
  RediStore.maxLength s ≠ 0%Z →
  Serialize (RediStore.serializer s) (prepared now fresh_id session) = inr b →
  (len b > RediStore.maxLength s)%Z →
  RediStore.Save s now fresh_id r w session c
  = ((w, prepared now fresh_id session, Some ErrTooBig), c).
Proof.
  intros Hage Hmax Hb Hlen. rewrite Save_positive by done. simpl.
  by rewrite (save_too_big _ _ _ b).
Qed.

(** C4, on the code. When the maximum age of the session is 0, [Save]
    sends one [Del] for the record, writes nothing, and hands
    [http.SetCookie] a cookie of empty value and maximum age 0 when the
    [Del] succeeds: the default maximum age of the store is not used. *)
Theorem Save_zero_maxAge_deletes s now fresh_id r w session c :
  Options.MaxAge (Session.Options session) = 0%Z →
  let k := RediStore.keyPrefix s +:+ Session.ID session in
  let res := RediStore.Save s now fresh_id r w session c in
  calls (conn_of res) = calls c ++ [CmdDel k] ∧
  writes (conn_of res) = writes c ∧
  (error_of res = None →
   response_of res
   = w ++ [Cookie.mk (Session.Name session) ""
             (Options.Path (Session.Options session))
             (Options.Domain (Session.Options session)) 0
             (Options.Secure (Session.Options session))
             (Options.HttpOnly (Session.Options session))]).
Proof.
  intros Hage k res. subst res. rewrite Save_nonpositive by lia. fold k.
  pose proof (Pool_Del_calls k c) as Hcalls.
  pose proof (Pool_Del_writes k c) as Hwrites.
  destruct (Pool_Del k c) as [[err|] c']; simpl in *; split_and!; try done.
  intros _. unfold SetCookie, NewCookie. by rewrite Hage.
Qed.

(** C8, amended. When the maximum age of the session is negative,
    [Save] sends a [Del] for the record of the session and returns its
    error if it has one, leaving the response as it was; when the [Del]
    succeeds it hands [http.SetCookie] one cookie, of empty value and of
    the negative maximum age of the session. The session is not
    changed. *)
Theorem Save_negative_expires_cookie s now fresh_id r w session c :
  (Options.MaxAge (Session.Options session) < 0)%Z →
  let k := RediStore.keyPrefix s +:+ Session.ID session in
  let res := RediStore.Save s now fresh_id r w session c in
  conn_of res = (Pool_Del k c).2 ∧
  calls (conn_of res) = calls c ++ [CmdDel k] ∧
  error_of res = (Pool_Del k c).1 ∧
  session_of res = session ∧
  (error_of res ≠ None → response_of res = w) ∧
  (error_of res = None →
   ∃ ck, response_of res = w ++ [ck] ∧
         Cookie.Name ck = Session.Name session ∧
         Cookie.Value ck = "" ∧
         Cookie.MaxAge ck = Options.MaxAge (Session.Options session) ∧
         (Cookie.MaxAge ck < 0)%Z).
Proof.
  intros Hage k res. subst res. rewrite Save_nonpositive by lia. fold k.
  pose proof (Pool_Del_calls k c) as Hcalls.
  destruct (Pool_Del k c) as [[err|] c']; simpl in *; split_and!; try done.
  intros _. eexists. split; [reflexivity|]. by simpl.
Qed.
End Save_facts.

(** ** Loops over a map *)

#[global] Instance KString_inj : Inj (=) (=) KString.
Proof. by intros s1 s2 [= ->]. Qed.

Section loops.
Context {K V : Type} `{Countable K}.

(** Inserting the entries of a list one after the other. *)
Lemma foldl_insert_union (l : list (K * V)) (m0 : gmap K V) :
  foldl (λ acc kv, <[kv.1 := kv.2]> acc) m0 l = list_to_map (reverse l) ∪ m0.
Proof.
  revert m0. induction l as [|[k v] l IH]; intros m0; simpl.
  - by rewrite (left_id_L ∅ (∪)).
  - rewrite IH, reverse_cons, list_to_map_app. simpl.
    rewrite insert_empty, <- (assoc_L (∪)).
    by rewrite <- insert_union_singleton_l.
Qed.

Lemma list_to_map_reverse (l : list (K * V)) :
  NoDup l.*1 → list_to_map (reverse l) =@{gmap K V} list_to_map l.
Proof.
  intros Hl. apply list_to_map_proper.
  - by rewrite fmap_reverse, reverse_Permutation.
  - apply reverse_Permutation.
Qed.

(** Copying a map entry by entry gives the map. *)
Lemma foldl_insert_map_to_list (m m0 : gmap K V) :
  foldl (λ acc kv, <[kv.1 := kv.2]> acc) m0 (map_to_list m) = m ∪ m0.
Proof.
  rewrite foldl_insert_union, list_to_map_reverse by apply NoDup_fst_map_to_list.
  by rewrite list_to_map_to_list.
Qed.

End loops.




(** ** Serializers *)

Section JSON_facts.
Context `{!Libraries}.

(** The loop of [Serialize] stops on a key that is not a string. *)
Lemma string_keyed_rejects (kvs : list (key * value)) (m : gmap string value) :
  (∃ k, k ∈ kvs.*1 ∧ as_string k = None) →
  ∃ k, JSONSerializer.string_keyed kvs m = inl (ErrNonStringKey k) ∧
       k ∈ kvs.*1 ∧ as_string k = None.
Proof.
  revert m. induction kvs as [|[k v] kvs IH]; intros m (k0 & Hin & Hk0).
  - by apply elem_of_nil in Hin.
  - simpl. destruct (as_string k) as [ks|] eqn:Hk.
    + destruct (IH (<[ks := v]> m)) as (k1 & Heq & Hin1 & Hk1).
      { exists k0. split; [|done]. simpl in Hin.
        apply elem_of_cons in Hin as [->|Hin]; [congruence|done]. }
      exists k1. split_and!; [done| |done]. by apply elem_of_cons; right.
    + exists k. split_and!; [done| |done]. by apply elem_of_cons; left.
Qed.

(** When the loop of [Serialize] ends, it has copied the entries. *)
Lemma string_keyed_accepts (kvs : list (key * value)) (m0 m : gmap string value) :
  JSONSerializer.string_keyed kvs m0 = inr m →
  kmap KString m
  =@{gmap key value} foldl (λ acc kv, <[kv.1 := kv.2]> acc) (kmap KString m0) kvs.
Proof.
  revert m0. induction kvs as [|[k v] kvs IH]; intros m0 Hm; simpl in *.
  - by injection Hm as ->.
  - destruct k as [ks| | |]; simpl in Hm; try discriminate.
    rewrite (IH _ Hm). by rewrite kmap_insert by apply _.
Qed.

Lemma Serialize_payload (ss : Session.t) (b : bytes) :
  JSONSerializer.Serialize ss = inr b →
  ∃ m, kmap KString m =@{gmap key value} Session.Values ss ∧ json_Marshal m = inr b.
Proof.
  unfold JSONSerializer.Serialize, JSONSerializer.SerializeData.
  destruct (JSONSerializer.string_keyed _ _) as [e|m] eqn:Hm; [done|].
  intros Hb. exists m. split; [|done].
  rewrite (string_keyed_accepts _ _ _ Hm), kmap_empty, foldl_insert_map_to_list.
  by rewrite (right_id_L ∅ (∪)).
Qed.

(** [Serialize] fails on a payload with a key that is not a string. *)
Lemma Serialize_rejects (ss : Session.t) :
  (∃ k, k ∈ dom (Session.Values ss) ∧ as_string k = None) →
  ∃ k, JSONSerializer.Serialize ss = inl (ErrNonStringKey k) ∧
       k ∈ dom (Session.Values ss) ∧ as_string k = None.
Proof.
  intros (k & Hk & Hs).
  destruct (string_keyed_rejects (map_to_list (Session.Values ss)) ∅)
    as (k1 & Heq & Hin & Hk1).
  { exists k. split; [|done]. apply elem_of_dom in Hk as [v Hv].
    apply list_elem_of_fmap. exists (k, v). split; [done|].
    by apply elem_of_map_to_list. }
  exists k1. unfold JSONSerializer.Serialize. rewrite Heq. split_and!; [done| |done].
  apply list_elem_of_fmap in Hin as ([k2 v2] & -> & Hin).
  apply elem_of_map_to_list in Hin. apply elem_of_dom. by exists v2.
Qed.

(** The loop of [Deserialize] lays the entries over the payload. *)
Lemma merge_into_map_to_list (vals : gmap key value) (m : gmap string value) :
  JSONSerializer.merge_into vals (map_to_list m) = kmap KString m ∪ vals.
Proof.
  unfold JSONSerializer.merge_into.
  transitivity (foldl (λ acc kv, <[kv.1 := kv.2]> acc) vals
                  (prod_map KString id <$> map_to_list m)).
  { by rewrite foldl_fmap. }
  rewrite foldl_insert_union, list_to_map_reverse; [done|].
  rewrite <- list_fmap_compose.
  replace (fst ∘ prod_map KString id) with (KString ∘ (fst : string * value → string))
    by done.
  rewrite list_fmap_compose. apply NoDup_fmap_2; [apply _|].
  apply NoDup_fst_map_to_list.
Qed.
End JSON_facts.

Section round_trip.
Context `{!Libraries}.

(** [Deserialize] lays what it reads over the payload of the target. *)
Lemma JSON_Deserialize_overlays (d : bytes) (m : gmap string value) (target : Session.t) :
  json_Unmarshal d ∅ = (m, None) →
  JSONSerializer.Deserialize d target
  = (Session.set_Values (kmap KString m ∪ Session.Values target) target, None).
Proof.
  intros Hd. unfold JSONSerializer.Deserialize, JSONSerializer.DeserializeData.
  rewrite Hd. by rewrite merge_into_map_to_list.
Qed.

(** C6. A payload that a serializer encodes is read back by the same
    serializer into a session without values (as [New] makes it): by
    the JSON serializer with each value after the widening of JSON,
    when [encoding/json] round-trips up to that widening; by the gob
    serializer with the very same keys and values, when [encoding/gob]
    round-trips. *)
Theorem serializers_round_trip (widen : value → value) :
  (json_round_trips widen →
   ∀ ss b target,
     JSONSerializer.Serialize ss = inr b →
     Session.Values target = ∅ →
     JSONSerializer.Deserialize b target
     = (Session.set_Values (widen <$> Session.Values ss) target, None)) ∧
  (gob_round_trips →
   ∀ ss b target,
     GobSerializer.Serialize ss = inr b →
     Session.Values target = ∅ →
     GobSerializer.Deserialize b target
     = (Session.set_Values (Session.Values ss) target, None)).
Proof.
  split.
  - intros Hjson ss b target Hb Htarget.
    destruct (Serialize_payload ss b Hb) as (m & Hm & Hmarshal).
    rewrite (JSON_Deserialize_overlays b (widen <$> m)) by by apply Hjson.
    rewrite Htarget, (right_id_L ∅ (∪)), kmap_fmap by apply _.
    by rewrite Hm.
  - intros Hgob ss b target Hb Htarget.
    unfold GobSerializer.Serialize in Hb. unfold GobSerializer.Deserialize.
    destruct (gob_Encode (Session.Values ss)) as [e|b'] eqn:Henc; [done|].
    injection Hb as ->. by rewrite Htarget, (Hgob _ _ Henc).
Qed.
End round_trip.

(** ** [Save] under the JSON serializer, [Delete] and [New] *)

Section lifecycle.
Context `{!Libraries} {R : Type} `{!Cmdable R}.
Implicit Types (s : RediStore.t) (session : Session.t) (c : Conn R).

(** C9, amended. On a payload with a key that is not a string the JSON
    serializer returns the error of a non-string key. [Save] of a
    store that serializes with it then writes no record; when the
    maximum age of the session is negative it leaves the payload as it
    is; when the maximum age is positive it returns that error, sends no
    command, sets no cookie, and leaves the payload as it is but for
    the creation time it puts in when there is none. *)
Theorem Save_rejects_non_string_keys s now fresh_id r w session c :
  RediStore.serializer s = JSONSerializer.it →
  (∃ k, k ∈ dom (Session.Values session) ∧ as_string k = None) →
  (∃ k, JSONSerializer.Serialize session = inl (ErrNonStringKey k) ∧
        k ∈ dom (Session.Values session) ∧ as_string k = None) ∧
  let res := RediStore.Save s now fresh_id r w session c in
  writes (conn_of res) = writes c ∧
  ((Options.MaxAge (Session.Options session) < 0)%Z →
   Session.Values (session_of res) = Session.Values session) ∧
  ((0 < Options.MaxAge (Session.Options session))%Z →
   (∃ k, error_of res = Some (ErrNonStringKey k) ∧ as_string k = None) ∧
   response_of res = w ∧
   conn_of res = c ∧
   Session.Values (session_of res)
   = match Session.Values session !! KString "created_time" with
     | Some _ => Session.Values session
     | None => <[KString "created_time" := VString now]> (Session.Values session)
     end).
Proof.
  intros Hjson Hkey. split; [by apply Serialize_rejects|].
  destruct (Z.leb_spec (Options.MaxAge (Session.Options session)) 0) as [Hage|Hage].
  - rewrite Save_nonpositive by done.
    pose proof (Pool_Del_writes (RediStore.keyPrefix s +:+ Session.ID session) c).
    destruct (Pool_Del _ c) as [[err|] c']; simpl in *; split_and!; try done; lia.
  - rewrite Save_positive by done. simpl.
    destruct (Serialize_rejects (prepared now fresh_id session)) as (k & Hk & _ & Hstr).
    { destruct Hkey as (k & Hk & Hstr). exists k. split; [|done].
      rewrite prepared_Values.
      destruct (Session.Values session !! KString "created_time"); [done|].
      rewrite dom_insert_L. set_solver. }
    unfold RediStore.save. rewrite Hjson. simpl. rewrite Hk. simpl.
    split_and!; [done|lia|].
    intros _. split_and!; [by exists k|done|done|apply prepared_Values].
Qed.


(** C7. When the request has the cookie and [securecookie.DecodeMulti]
    fails on it with every codec of the store, [New] does not panic and
    returns a session without ID and without values, of the options of
    the store, with [IsNew] set, next to the error of the decoding; it
    sends no command to the server. *)
Theorem New_decode_failure s r name c cookie_value e :
  Request_Cookie r name = inr cookie_value →
  securecookie_DecodeMulti name cookie_value (RediStore.Codecs s) = inl e →
  ∃ session,
    RediStore.New s r name c = (Returns (session, Some e), c) ∧
    session = Session.mk "" ∅ (RediStore.Options s) true name ∧
    Session.Values session = ∅ ∧
    Session.IsNew session = true.
Proof.
  intros Hcookie Hdecode. eexists. unfold RediStore.New.
  rewrite Hcookie, Hdecode. by split_and!.
Qed.

(** C1, amended. When the cookie of the request decodes to an envelope,
    the record of that session loads without error, and [!=] finds the
    entry ["created_time"] of the loaded payload different from the
    creation time of the envelope (which it can only when the two are
    not both slices or both maps), [New] returns without error a session
    whose payload is empty and whose [IsNew] is set, whatever the loaded
    payload holds. *)
Theorem New_stale_creation_time s r name c cookie_value info loaded c' :
  Request_Cookie r name = inr cookie_value →
  securecookie_DecodeMulti name cookie_value (RediStore.Codecs s) = inr info →
  RediStore.load s
    (Session.mk (SessionInfo.ID info) ∅ (RediStore.Options s) true name) c
  = ((loaded, true, None), c') →
  iface_neq (index (Session.Values loaded) (KString "created_time"))
    (SessionInfo.CreateTime info) = Some true →
  ∃ session,
    RediStore.New s r name c = (Returns (session, None), c') ∧
    Session.Values session = ∅ ∧
    Session.IsNew session = true ∧
    Session.ID session = Session.ID loaded.
Proof.
  intros Hcookie Hdecode Hload Hneq. eexists. unfold RediStore.New.
  rewrite Hcookie, Hdecode. simpl.
  unfold NewSession, Session.set_Options, Session.set_IsNew, Session.set_ID. simpl.
  rewrite Hload. simpl. rewrite Hneq. by split_and!.
Qed.
End lifecycle.

(** ** The store on the test doubles *)

Lemma length_list_byte_of_string (k : string) :
  length (String.list_byte_of_string k) = String.length k.
Proof.
  unfold String.list_byte_of_string. rewrite length_map.
  induction k as [|a k IH]; simpl; [done|]. by rewrite IH.
Qed.

Lemma get_put_text (s : string) (b rest : bytes) :
  Double.put_text s = Some b → Double.get_text (b ++ rest) = Some (s, rest).
Proof.
  unfold Double.put_text.
  destruct (Byte.of_nat (String.length s)) as [n|] eqn:Hn; [|done].
  intros [= <-]. apply Byte.to_of_nat in Hn. simpl.
  rewrite Hn, <- (length_list_byte_of_string s).
  rewrite decide_True by (rewrite length_app; lia).
  by rewrite take_app_length, drop_app_length, String.string_of_list_byte_of_string.
Qed.

Lemma get_put_entries (kvs : list (string * value)) (body : bytes) :
  Double.put_entries kvs = Some body →
  Double.get_entries (length kvs) body = Some kvs.
Proof.
  revert body. induction kvs as [|[k v] kvs IH]; intros body; simpl.
  - by intros [= <-].
  - destruct v as [| | | |v| |]; try done.
    destruct (Double.put_text k) as [bk|] eqn:Hk; [|done].
    destruct (Double.put_text v) as [bv|] eqn:Hv; [|done].
    destruct (Double.put_entries kvs) as [rest|]; [|done].
    intros [= <-].
    rewrite (get_put_text _ _ _ Hk), (get_put_text _ _ _ Hv).
    by rewrite (IH rest).
Qed.

(** The flat codec reads back the entries it wrote. *)
Lemma flat_round_trip (kvs : list (string * value)) (b : bytes) :
  Double.flat_encode kvs = inr b → Double.flat_decode b = inr kvs.
Proof.
  unfold Double.flat_encode.
  destruct (Byte.of_nat (length kvs)) as [n|] eqn:Hn; [|done].
  destruct (Double.put_entries kvs) as [body|] eqn:Hbody; [|done].
  intros [= <-]. apply Byte.to_of_nat in Hn. simpl.
  by rewrite Hn, (get_put_entries _ _ Hbody).
Qed.

Lemma Double_json_round_trips : @json_round_trips Double.libraries id.
Proof.
  intros m b Hb. simpl in *. unfold Double.Marshal, Double.Unmarshal in *.
  rewrite (flat_round_trip _ _ Hb), map_fmap_id, foldl_insert_map_to_list.
  by rewrite (right_id_L ∅ (∪)).
Qed.

Lemma mapM_key_text (kvs : list (key * value)) (l : list (string * value)) :
  mapM Double.key_text kvs = Some l → prod_map KString id <$> l = kvs.
Proof.
  revert l. induction kvs as [|[k v] kvs IH]; intros l; simpl.
  - by intros [= <-].
  - destruct k as [ks| | |]; simpl; try done.
    destruct (mapM Double.key_text kvs) as [l'|]; simpl; [|done].
    intros [= <-]. rewrite fmap_cons. f_equal. by apply IH.
Qed.

Lemma Double_gob_round_trips : @gob_round_trips Double.libraries.
Proof.
  intros m b Hb. simpl in *. unfold Double.Encode, Double.Decode in *.
  destruct (mapM Double.key_text (map_to_list m)) as [l|] eqn:Hl; [|done].
  rewrite (flat_round_trip _ _ Hb). f_equal.
  transitivity (foldl (λ acc kv, <[kv.1 := kv.2]> acc) (∅ : gmap key value)
                  (prod_map KString id <$> l)).
  { by rewrite foldl_fmap. }
  rewrite (mapM_key_text _ _ Hl), foldl_insert_map_to_list.
  by rewrite (right_id_L ∅ (∪)).
Qed.

(** C1, on a request whose cookie was made at 2020-01-01 00:00:00 while
    the record of the session holds a user and no creation time. *)
Lemma New_stale_creation_time_witness :
  ∃ session,
    Double.New Double.store Double.request_S1 "sid" (Double.conn Double.server_of_user)
    = (Returns (session, None), mkConn Double.server_of_user [CmdGet "session_S1"]) ∧
    Session.Values session = ∅ ∧
    Session.IsNew session = true ∧
    Session.ID session = "S1".
Proof.
  unfold Double.New.
  apply (@New_stale_creation_time Double.libraries Double.Server Double.cmdable
           Double.store Double.request_S1 "sid" (Double.conn Double.server_of_user)
           "S1|20200101000000"
           (SessionInfo.mk "S1" (VString "20200101000000"))
           (Session.mk "S1" Double.of_user (RediStore.Options Double.store) true "sid")
           (mkConn Double.server_of_user [CmdGet "session_S1"]));
    vm_compute; reflexivity.
Defined.

(** C1, as stated, fails when the two creation times are slices: they
    differ, and [New] panics in the comparison instead of returning. *)
Lemma New_panics_on_two_slices :
  ¬ @stale_creation_time_resets Slices.libraries Double.Server Double.cmdable
      Slices.store Slices.request "sid" (Double.conn Slices.server).
Proof.
  intros Hclaim.
  edestruct Hclaim as (session & err & c'' & Hnew & _).
  - reflexivity.
  - vm_compute. reflexivity.
  - vm_compute. reflexivity.
  - vm_compute. discriminate.
  - vm_compute in Hnew. discriminate Hnew.
Qed.

(** The panic itself. *)
Example New_on_two_slices :
  (Slices.New Slices.store Slices.request "sid" (Double.conn Slices.server)).1 = Panics.
Proof. vm_compute. reflexivity. Qed.

(** C2, as stated, fails on a session that is marked for deletion: its
    payload is never serialized, [Save] returns no error and sets the
    cookie that expires. *)
Lemma Save_of_expired_session_skips_size_bound :
  ¬ @size_bound_of_every_session Double.libraries Double.Server Double.cmdable
      Double.small_store Double.clock Double.fresh_id [] []
      (Double.session (-1) Double.stamped) (Double.conn Double.empty_server).
Proof.
  intros Hclaim.
  edestruct Hclaim as [Herr _].
  - vm_compute. discriminate.
  - vm_compute. reflexivity.
  - vm_compute. reflexivity.
  - vm_compute in Herr. discriminate Herr.
Qed.

Lemma Save_rejects_oversized_witness :
  Double.Save Double.small_store Double.clock Double.fresh_id [] []
    (Double.session 3600 Double.stamped) (Double.conn Double.empty_server)
  = (([], Double.session 3600 Double.stamped, Some ErrTooBig),
     Double.conn Double.empty_server).
Proof.
  unfold Double.Save.
  apply (@Save_rejects_oversized Double.libraries Double.Server Double.cmdable
           Double.small_store Double.clock Double.fresh_id [] []
           (Double.session 3600 Double.stamped) (Double.conn Double.empty_server)
           (Double.record_of Double.stamped));
    vm_compute; first [reflexivity | discriminate].
Defined.


Lemma Save_zero_maxAge_deletes_witness :
  let res := Double.Save Double.store Double.clock Double.fresh_id [] []
               (Double.session 0 Double.stamped) (Double.conn Double.server_of_user) in
  calls (conn_of res) = [CmdDel "session_S1"] ∧
  writes (conn_of res) = [] ∧
  (error_of res = None →
   response_of res = [Cookie.mk "sid" "" "/" "" 0 false false]).
Proof.
  unfold Double.Save.
  apply (@Save_zero_maxAge_deletes Double.libraries Double.Server Double.cmdable
           Double.store Double.clock Double.fresh_id [] []
           (Double.session 0 Double.stamped) (Double.conn Double.server_of_user)).
  reflexivity.
Defined.

(** C8, as stated, fails on a session whose maximum age is 0: the cookie
    [Save] sets has maximum age 0, which is not negative. *)
Lemma Save_of_zero_maxAge_sets_cookie_of_age_zero :
  ¬ @Save_nonpositive_expires_cookie Double.libraries Double.Server Double.cmdable
      Double.store Double.clock Double.fresh_id [] []
      (Double.session 0 Double.stamped) (Double.conn Double.empty_server).
Proof.
  intros Hclaim.
  destruct Hclaim as (_ & _ & Hcookie); [vm_compute; discriminate|].
  destruct Hcookie as (ck & Hresponse & _ & Hneg); [reflexivity|].
  vm_compute in Hresponse. injection Hresponse as <-.
  vm_compute in Hneg. discriminate Hneg.
Qed.

Lemma Save_negative_expires_cookie_witness :
  let res := Double.Save Double.store Double.clock Double.fresh_id [] []
               (Double.session (-1) Double.stamped) (Double.conn Double.server_of_user) in
  calls (conn_of res) = [CmdDel "session_S1"] ∧
  error_of res = None ∧
  response_of res = [Cookie.mk "sid" "" "/" "" (-1) false false] ∧
  session_of res = Double.session (-1) Double.stamped.
Proof.
  destruct (@Save_negative_expires_cookie Double.libraries Double.Server Double.cmdable
              Double.store Double.clock Double.fresh_id [] []
              (Double.session (-1) Double.stamped) (Double.conn Double.server_of_user))
    as (_ & Hcalls & Herr & Hsession & _ & _); [reflexivity|].
  split_and!; [exact Hcalls|exact Herr|reflexivity|exact Hsession].
Defined.

(** C9, as stated, fails on a payload without creation time: [Save]
    stamps the payload before the serializer rejects it. *)
Lemma Save_stamps_rejected_payload :
  ¬ @Save_keeps_rejected_payload Double.libraries Double.Server Double.cmdable
      Double.store Double.clock Double.fresh_id [] []
      (Double.session 3600 Double.odd_keys) (Double.conn Double.empty_server).
Proof.
  intros Hclaim.
  destruct Hclaim as (_ & _ & Hvalues); [reflexivity| |].
  - exists (KInt 7). split; [|done]. apply elem_of_dom. by eexists.
  - apply (f_equal (λ m, m !! KString "created_time")) in Hvalues.
    vm_compute in Hvalues. discriminate Hvalues.
Qed.

Lemma Save_rejects_non_string_keys_witness :
  let res := Double.Save Double.store Double.clock Double.fresh_id [] []
               (Double.session 3600 Double.odd_keys) (Double.conn Double.empty_server) in
  (∃ k, error_of res = Some (ErrNonStringKey k) ∧ as_string k = None) ∧
  response_of res = [] ∧
  conn_of res = Double.conn Double.empty_server ∧
  Session.Values (session_of res)
  = <[KString "created_time" := VString Double.clock]> Double.odd_keys.
Proof.
  destruct (@Save_rejects_non_string_keys Double.libraries Double.Server Double.cmdable
              Double.store Double.clock Double.fresh_id [] []
              (Double.session 3600 Double.odd_keys) (Double.conn Double.empty_server))
    as (_ & _ & _ & Hpositive); [reflexivity| |].
  - exists (KInt 7). split; [|reflexivity]. apply elem_of_dom. by eexists.
  - destruct Hpositive as (Herr & Hresponse & Hconn & Hvalues); [reflexivity|].
    split_and!; [exact Herr|exact Hresponse|exact Hconn|exact Hvalues].
Defined.


Lemma New_decode_failure_witness :
  ∃ session,
    Double.New Double.store Double.request_forged "sid" (Double.conn Double.server_of_user)
    = (Returns (session,
                Some (ErrExternal "securecookie: the value is not valid")),
       Double.conn Double.server_of_user) ∧
    session = Session.mk "" ∅ (RediStore.Options Double.store) true "sid" ∧
    Session.Values session = ∅ ∧
    Session.IsNew session = true.
Proof.
  unfold Double.New.
  apply (@New_decode_failure Double.libraries Double.Server Double.cmdable
           Double.store Double.request_forged "sid" (Double.conn Double.server_of_user)
           "forged"); reflexivity.
Defined.

Lemma serializers_round_trip_witness :
  @JSONSerializer.Deserialize Double.libraries (Double.record_of Double.of_user)
    (NewSession "sid")
  = (Session.set_Values (id <$> Double.of_user) (NewSession "sid"), None) ∧
  @GobSerializer.Deserialize Double.libraries (Double.record_of Double.of_user)
    (NewSession "sid")
  = (Session.set_Values Double.of_user (NewSession "sid"), None).
Proof.
  destruct (@serializers_round_trip Double.libraries id) as [Hjson Hgob].
  split.
  - apply (Hjson Double_json_round_trips (Double.session 3600 Double.of_user));
      vm_compute; reflexivity.
  - apply (Hgob Double_gob_round_trips (Double.session 3600 Double.of_user));
      vm_compute; reflexivity.
Defined.

(** ** Scenarios *)

(** A request without cookie: a new session, no error, no command. *)
Example New_without_cookie :
  Double.New Double.store [] "sid" (Double.conn Double.server_of_user)
  = (Returns (Session.mk "" ∅ (RediStore.Options Double.store) true "sid", None),
     Double.conn Double.server_of_user).
Proof. reflexivity. Qed.

(** [Save] of a new session of maximum age 1800, then [New] on a request
    that brings back the cookie: one [Set] of 1800 seconds under the
    fresh ID, and a session that is not new, with the payload that was
    saved. *)
Example Save_then_New :
  let session :=
    Session.mk "" {[ KString "user" := VString "alice" ]}
      (Options.set_MaxAge 1800 (RediStore.Options Double.store)) true "sid" in
  let saved : gmap key value :=
    {[ KString "user" := VString "alice";
       KString "created_time" := VString Double.clock ]} in
  let res := Double.Save Double.store Double.clock Double.fresh_id [] [] session
               (Double.conn Double.empty_server) in
  error_of res = None ∧
  calls (conn_of res)
  = [CmdSet "session_MFRGGZDFMZTWQ2LK" (Double.record_of saved) 1800000000000] ∧
  Cookie.Value <$> response_of res = ["MFRGGZDFMZTWQ2LK|20240101120000"] ∧
  ∃ back,
    (Double.New Double.store [("sid", "MFRGGZDFMZTWQ2LK|20240101120000")] "sid"
       (conn_of res)).1
    = Returns (back, None) ∧
    Session.IsNew back = false ∧
    Session.ID back = "MFRGGZDFMZTWQ2LK" ∧
    Session.Values back = saved.
Proof.
  split_and!; [vm_compute; reflexivity..|].
  eexists. split_and!; vm_compute; reflexivity.
Qed.

(** * Further properties *)

(** ** The serializers, case by case *)

Section JSON_outcomes.
Context `{!Libraries}.

Lemma string_keyed_outcomes (kvs : list (key * value)) (m0 : gmap string value) :
  (∃ k, JSONSerializer.string_keyed kvs m0 = inl (ErrNonStringKey k) ∧
        k ∈ kvs.*1 ∧ as_string k = None) ∨
  (∃ m, JSONSerializer.string_keyed kvs m0 = inr m).
Proof.
  revert m0. induction kvs as [|[k v] kvs IH]; intros m0; simpl.
  - right. by eexists.
  - destruct (as_string k) as [ks|] eqn:Hk.
    + destruct (IH (<[ks := v]> m0)) as [(k' & Heq & Hin & Hk')|[m Hm]].
      * left. exists k'. split_and!; [done| |done]. by apply elem_of_cons; right.
      * right. by exists m.
    + left. exists k. split_and!; [done| |done]. by apply elem_of_cons; left.
Qed.

(** X1. [JSONSerializer.Serialize] has two outcomes: either the payload
    has a key that is not a string and the result is the error of such a
    key, or the result is that of [json.Marshal] on the copy of the whole
    payload under its string keys. *)
Theorem JSON_Serialize_outcomes (ss : Session.t) :
  (∃ k, JSONSerializer.Serialize ss = inl (ErrNonStringKey k) ∧
        k ∈ dom (Session.Values ss) ∧ as_string k = None) ∨
  (∃ m, kmap KString m =@{gmap key value} Session.Values ss ∧
        JSONSerializer.Serialize ss = json_Marshal m).
Proof.
  unfold JSONSerializer.Serialize, JSONSerializer.SerializeData.
  destruct (string_keyed_outcomes (map_to_list (Session.Values ss)) ∅)
    as [(k & Heq & Hin & Hk)|[m Hm]].
  - left. exists k. rewrite Heq. split_and!; [done| |done].
    apply list_elem_of_fmap in Hin as ([k' v] & -> & Hin).
    apply elem_of_map_to_list in Hin. apply elem_of_dom. by exists v.
  - right. exists m. rewrite Hm. split; [|done].
    rewrite (string_keyed_accepts _ _ _ Hm), kmap_empty, foldl_insert_map_to_list.
    by rewrite (right_id_L ∅ (∪)).
Qed.

(** X2. [JSONSerializer.Deserialize] changes nothing when
    [json.Unmarshal] fails; when it succeeds it changes the payload
    only: an entry that was read replaces the entry of the session under
    the same string key, every other entry of the session stays. *)
Theorem JSON_Deserialize_merges (d : bytes) (target : Session.t) :
  match json_Unmarshal d ∅ with
  | (_, Some e) => JSONSerializer.Deserialize d target = (target, Some e)
  | (m, None) =>
      ∃ vals,
        JSONSerializer.Deserialize d target = (Session.set_Values vals target, None) ∧
        ∀ k, vals !! k
             = match k with
               | KString ks =>
                   match m !! ks with
                   | Some v => Some v
                   | None => Session.Values target !! k
                   end
               | _ => Session.Values target !! k
               end
  end.
Proof.
  destruct (json_Unmarshal d ∅) as [m [e|]] eqn:Hd.
  - unfold JSONSerializer.Deserialize, JSONSerializer.DeserializeData. by rewrite Hd.
  - eexists. split; [by apply JSON_Deserialize_overlays|].
    intros k. rewrite lookup_union.
    destruct k as [ks|n|b|f].
    + rewrite lookup_kmap by apply _.
      destruct (m !! ks), (Session.Values target !! KString ks); done.
    + rewrite (proj2 (lookup_kmap_None (M2 := gmap key) KString m (KInt n)))
        by (intros i Hi; discriminate Hi).
      by destruct (Session.Values target !! KInt n).
    + rewrite (proj2 (lookup_kmap_None (M2 := gmap key) KString m (KBool b)))
        by (intros i Hi; discriminate Hi).
      by destruct (Session.Values target !! KBool b).
    + rewrite (proj2 (lookup_kmap_None (M2 := gmap key) KString m (KFloat64 f)))
        by (intros i Hi; discriminate Hi).
      by destruct (Session.Values target !! KFloat64 f).
Qed.
End JSON_outcomes.

(** ** Expirations *)

(** X3. A maximum age between -9223372036 and 9223372036 seconds becomes
    that many times 10^9 nanoseconds. *)
Theorem seconds_exact (age : Z) :
  (-9223372036 ≤ age ≤ 9223372036)%Z → seconds age = (age * 1000000000)%Z.
Proof.
  intros Hage. unfold seconds, wrap64.
  change (2 ^ 63)%Z with 9223372036854775808%Z.
  change (2 ^ 64)%Z with 18446744073709551616%Z.
  rewrite (Z.mod_small (age + _)) by lia.
  replace (age + 9223372036854775808 - 9223372036854775808)%Z with age by lia.
  rewrite Z.mod_small by lia. lia.
Qed.

Lemma seconds_exact_witness : seconds 1800 = 1800000000000%Z.
Proof. apply (seconds_exact 1800). lia. Defined.

(** X4. A maximum age above 9223372036 seconds, up to 18446744073,
    overflows the 64 bits of a duration: the expiration is negative. *)
Theorem seconds_overflow (age : Z) :
  (9223372036 < age ≤ 18446744073)%Z →
  seconds age = (age * 1000000000 - 2 ^ 64)%Z ∧ (seconds age < 0)%Z.
Proof.
  intros Hage. unfold seconds, wrap64.
  change (2 ^ 63)%Z with 9223372036854775808%Z.
  change (2 ^ 64)%Z with 18446744073709551616%Z.
  rewrite (Z.mod_small (age + _)) by lia.
  replace (age + 9223372036854775808 - 9223372036854775808)%Z with age by lia.
  assert (Hmod : ((age * 1000000000 + 9223372036854775808) mod 18446744073709551616
                  = age * 1000000000 + 9223372036854775808 - 18446744073709551616)%Z).
  { symmetry. apply (Z.mod_unique_pos _ _ 1); lia. }
  rewrite Hmod. lia.
Qed.

Lemma seconds_overflow_witness :
  seconds 10000000000 = (10000000000 * 1000000000 - 2 ^ 64)%Z ∧
  (seconds 10000000000 < 0)%Z.
Proof. apply (seconds_overflow 10000000000). lia. Defined.

(** ** [save], [Store] and [Load] *)

Section records.
Context `{!Libraries} {R : Type} `{!Cmdable R}.
Implicit Types (s : RediStore.t) (session : Session.t) (c : Conn R).

(** X5. A record that [save] accepts is sent in exactly one [Set] under
    the prefixed ID, whose expiration is the maximum age of the session,
    or the default maximum age of the store when the session has 0; the
    result of [save] is the answer to that [Set]. *)
Theorem save_sends_one_Set s session c b :
  Serialize (RediStore.serializer s) session = inr b →
  (RediStore.maxLength s = 0 ∨ len b ≤ RediStore.maxLength s)%Z →
  let k := RediStore.keyPrefix s +:+ Session.ID session in
  let age := Options.MaxAge (Session.Options session) in
  (age = 0%Z →
   RediStore.save s session c = Pool_Set k b (seconds (RediStore.DefaultMaxAge s)) c ∧
   calls (RediStore.save s session c).2
   = calls c ++ [CmdSet k b (seconds (RediStore.DefaultMaxAge s))]) ∧
  (age ≠ 0%Z →
   RediStore.save s session c = Pool_Set k b (seconds age) c ∧
   calls (RediStore.save s session c).2 = calls c ++ [CmdSet k b (seconds age)]).
Proof.
  intros Hb Hlen k age. rewrite (save_expiration _ _ _ b) by done.
  fold k age. split; intros Hage.
  - rewrite Hage. simpl. by rewrite Pool_Set_calls.
  - destruct (Z.eqb_spec age 0); [done|]. by rewrite Pool_Set_calls.
Qed.

(** X6. [Store] checks the serialized mapping against the maximum length
    as [save] does: over a maximum that is not 0 it returns the error of
    a value too big and sends nothing; otherwise it sends one [Set]
    under the prefixed ID with the fixed expiration of 3000 days, and
    returns its answer. *)
Theorem Store_bound_and_expiration s ID data c b :
  SerializeData (RediStore.serializer s) data = inr b →
  let k := RediStore.keyPrefix s +:+ ID in
  (RediStore.maxLength s ≠ 0%Z → (len b > RediStore.maxLength s)%Z →
   RediStore.Store s ID data c = (Some ErrTooBig, c)) ∧
  ((RediStore.maxLength s = 0 ∨ len b ≤ RediStore.maxLength s)%Z →
   RediStore.Store s ID data c = Pool_Set k b 259200000000000000 c ∧
   calls (RediStore.Store s ID data c).2
   = calls c ++ [CmdSet k b 259200000000000000]).
Proof.
  intros Hb k. unfold RediStore.Store. rewrite Hb. fold k.
  change (seconds sessionExpire) with 259200000000000000%Z.
  split.
  - intros Hmax Hlen.
    destruct (Z.eqb_spec (RediStore.maxLength s) 0); [done|].
    destruct (Z.gtb_spec (len b) (RediStore.maxLength s)); [done|lia].
  - intros Hlen.
    destruct (Z.eqb_spec (RediStore.maxLength s) 0); simpl.
    + by rewrite Pool_Set_calls.
    + destruct (Z.gtb_spec (len b) (RediStore.maxLength s)); [lia|].
      by rewrite Pool_Set_calls.
Qed.

(** X7. [Load] sends one [Get] under the prefixed ID. It reports that
    nothing was found, and leaves the destination as it is, when the
    [Get] fails or the destination is [nil]; the error of the [Get] is
    returned unless it is [redis.Nil]. *)
Theorem Load_found_false s ID data c :
  let k := RediStore.keyPrefix s +:+ ID in
  let err := (Pool_Get k c).1.2 in
  calls (RediStore.Load s ID data c).2 = calls c ++ [CmdGet k] ∧
  (is_Some err ∨ data = None →
   RediStore.Load s ID data c
   = ((data, false,
       match err with
       | Some e => if is_redis_Nil e then None else Some e
       | None => None
       end),
      (Pool_Get k c).2)).
Proof.
  intros k err. subst err. unfold RediStore.Load. fold k.
  pose proof (Pool_Get_calls k c) as Hcalls.
  destruct (Pool_Get k c) as [[d [e|]] c']; simpl in *.
  - split; [by destruct (is_redis_Nil e)|]. intros _. by destruct (is_redis_Nil e).
  - destruct data as [m|]; simpl.
    + split.
      * by destruct (DeserializeData (RediStore.serializer s) (default [] d) m).
      * intros [[e He]|?]; done.
    + done.
Qed.

(** X8. On a server that reads back what was written, with a JSON codec
    that round-trips up to [widen], a mapping that [Store] has stored
    without error is found by [Load] under the same ID: read into an
    empty destination it is the mapping with each value widened. *)
Theorem Store_then_Load (widen : value → value) s ID data c c' :
  RediStore.serializer s = JSONSerializer.it →
  json_round_trips widen →
  reads_back_writes →
  RediStore.Store s ID data c = (None, c') →
  (RediStore.Load s ID (Some ∅) c').1 = (Some (widen <$> data), true, None).
Proof.
  intros Hjson Hcodec Hserver. unfold RediStore.Store, RediStore.Load.
  rewrite Hjson. simpl. unfold JSONSerializer.SerializeData.
  destruct (json_Marshal data) as [e|b] eqn:Hb; [done|].
  destruct (negb _ && _); [done|].
  unfold Pool_Set, Pool_Get.
  destruct (redis_Set _ b _ (server c)) as [err srv] eqn:Hset.
  intros [= -> <-]. simpl.
  pose proof (Hserver _ _ _ _ _ Hset) as Hget.
  destruct (redis_Get _ srv) as [[d e] srv'] eqn:Hg. simpl in Hget.
  injection Hget as -> ->. simpl.
  unfold JSONSerializer.DeserializeData. by rewrite (Hcodec _ _ Hb).
Qed.
End records.

Lemma Double_reads_back_writes : @reads_back_writes Double.Server Double.cmdable.
Proof.
  intros k b d r r'. simpl. unfold Double.Set_, Double.Get.
  destruct (Double.down r) as [e|]; [done|]. intros [= <-]. simpl.
  by rewrite lookup_insert_eq.
Qed.

Lemma save_sends_one_Set_witness :
  Fixture.save Double.store (Double.session 0 Double.stamped)
    (Double.conn Double.empty_server)
  = Pool_Set (Cmdable0 := Double.cmdable) "session_S1" (Double.record_of Double.stamped)
      1200000000000 (Double.conn Double.empty_server) ∧
  calls (Fixture.save Double.store (Double.session 0 Double.stamped)
           (Double.conn Double.empty_server)).2
  = [CmdSet "session_S1" (Double.record_of Double.stamped) 1200000000000].
Proof.
  unfold Fixture.save.
  apply (@save_sends_one_Set Double.Server Double.cmdable Double.store
           (Double.session 0 Double.stamped) (Double.conn Double.empty_server)
           (Double.record_of Double.stamped));
    [vm_compute; reflexivity | right; vm_compute; discriminate | reflexivity].
Defined.

Lemma Store_bound_and_expiration_witness :
  Fixture.Store Double.small_store "prefs" Fixture.settings
    (Double.conn Double.empty_server)
  = (Some ErrTooBig, Double.conn Double.empty_server) ∧
  calls (Fixture.Store Double.store "prefs" Fixture.settings
           (Double.conn Double.empty_server)).2
  = [CmdSet "session_prefs"
       (match Double.Marshal Fixture.settings with inr b => b | inl _ => [] end)
       259200000000000000].
Proof.
  unfold Fixture.Store. split.
  - apply (@Store_bound_and_expiration Double.Server Double.cmdable Double.small_store
             "prefs" Fixture.settings (Double.conn Double.empty_server)
             (match Double.Marshal Fixture.settings with inr b => b | inl _ => [] end));
      vm_compute; first [reflexivity | discriminate].
  - apply (@Store_bound_and_expiration Double.Server Double.cmdable Double.store
             "prefs" Fixture.settings (Double.conn Double.empty_server)
             (match Double.Marshal Fixture.settings with inr b => b | inl _ => [] end));
      [vm_compute; reflexivity | right; vm_compute; discriminate].
Defined.

Lemma Load_found_false_witness :
  Fixture.Load Double.store "prefs" (Some Fixture.settings)
    (Double.conn Double.empty_server)
  = ((Some Fixture.settings, false, None),
     mkConn Double.empty_server [CmdGet "session_prefs"]) ∧
  Fixture.Load Double.store "prefs" (Some Fixture.settings)
    (Double.conn Double.broken_server)
  = ((Some Fixture.settings, false,
      Some (ErrExternal "dial tcp: connection refused")),
     mkConn Double.broken_server [CmdGet "session_prefs"]).
Proof.
  unfold Fixture.Load. split.
  - apply (@Load_found_false Double.Server Double.cmdable Double.store "prefs"
             (Some Fixture.settings) (Double.conn Double.empty_server)).
    left. by eexists.
  - apply (@Load_found_false Double.Server Double.cmdable Double.store "prefs"
             (Some Fixture.settings) (Double.conn Double.broken_server)).
    left. by eexists.
Defined.

Lemma Store_then_Load_witness :
  (Fixture.Load Double.store "prefs" (Some ∅)
     (Fixture.Store Double.store "prefs" Fixture.settings
        (Double.conn Double.empty_server)).2).1
  = (Some (id <$> Fixture.settings), true, None).
Proof.
  unfold Fixture.Load.
  apply (@Store_then_Load Double.libraries Double.Server Double.cmdable id
           Double.store "prefs" Fixture.settings (Double.conn Double.empty_server));
    [reflexivity | apply Double_json_round_trips | apply Double_reads_back_writes
    | vm_compute; reflexivity].
Defined.

(** ** [load] and [New], case by case *)

Section New_cases.
Context `{!Libraries} {R : Type} `{!Cmdable R}.
Implicit Types (s : RediStore.t) (session : Session.t) (c : Conn R).

Lemma load_calls s session c :
  calls (RediStore.load s session c).2
  = calls c ++ [CmdGet (RediStore.keyPrefix s +:+ Session.ID session)].
Proof.
  unfold RediStore.load.
  pose proof (Pool_Get_calls (RediStore.keyPrefix s +:+ Session.ID session) c) as Hcalls.
  destruct (Pool_Get _ c) as [[[d|] [e|]] c']; simpl in *; try done.
  - by destruct (is_redis_Nil e).
  - by destruct (Deserialize (RediStore.serializer s) d session).
  - by destruct (is_redis_Nil e).
Qed.

(** [load] when the [Get] brings no record. *)
Lemma load_without_record s session c d e :
  (Pool_Get (RediStore.keyPrefix s +:+ Session.ID session) c).1 = (d, e) →
  is_Some e ∨ d = None →
  RediStore.load s session c
  = ((session, false,
      match e with
      | Some err => if is_redis_Nil err then None else Some err
      | None => None
      end),
     (Pool_Get (RediStore.keyPrefix s +:+ Session.ID session) c).2).
Proof.
  intros Hget Hcase. unfold RediStore.load.
  destruct (Pool_Get _ c) as [[d' e'] c']. simpl in *. injection Hget as -> ->.
  destruct e as [err|]; [by destruct d, (is_redis_Nil err)|].
  destruct Hcase as [[? ?]| ->]; done.
Qed.

(** [New] once the cookie is decoded. *)
Lemma New_after_decode s r name c cookie_value info :
  Request_Cookie r name = inr cookie_value →
  securecookie_DecodeMulti name cookie_value (RediStore.Codecs s) = inr info →
  RediStore.New s r name c
  = let '((session, ok, err), c') :=
      RediStore.load s
        (Session.mk (SessionInfo.ID info) ∅ (RediStore.Options s) true name) c in
    if is_nil err && ok then
      match iface_neq (index (Session.Values session) (KString "created_time"))
              (SessionInfo.CreateTime info) with
      | None => (Panics, c')
      | Some true =>
          (Returns (Session.set_IsNew true (Session.set_Values ∅ session), err), c')
      | Some false => (Returns (Session.set_IsNew false session, err), c')
      end
    else (Returns (Session.set_IsNew (negb (is_nil err && ok)) session, err), c').
Proof. intros Hcookie Hdecode. unfold RediStore.New. by rewrite Hcookie, Hdecode. Qed.

(** X9. When the cookie decodes and the server has no record for the ID
    of the envelope (the [Get] answers [redis.Nil], or no bytes), [New]
    returns without error a session with that ID, an empty payload, the
    options of the store and [IsNew] set. *)
Theorem New_record_absent s r name c cookie_value info d :
  Request_Cookie r name = inr cookie_value →
  securecookie_DecodeMulti name cookie_value (RediStore.Codecs s) = inr info →
  let k := RediStore.keyPrefix s +:+ SessionInfo.ID info in
  (Pool_Get k c).1 = (d, Some redis_Nil) ∨ (Pool_Get k c).1 = (None, None) →
  RediStore.New s r name c
  = (Returns (Session.mk (SessionInfo.ID info) ∅ (RediStore.Options s) true name, None),
     (Pool_Get k c).2).
Proof.
  intros Hcookie Hdecode k Hget.
  rewrite (New_after_decode _ _ _ _ _ _ Hcookie Hdecode).
  set (fresh := Session.mk (SessionInfo.ID info) ∅ (RediStore.Options s) true name).
  destruct Hget as [Hget|Hget].
  - by rewrite (load_without_record s fresh c _ _ Hget) by (left; by eexists).
  - by rewrite (load_without_record s fresh c _ _ Hget) by (by right).
Qed.

(** X10. When the cookie decodes and the [Get] fails with an error
    other than [redis.Nil], [New] returns that error, next to a session
    with the ID of the envelope, an empty payload and [IsNew] set. *)
Theorem New_transport_error s r name c cookie_value info d e :
  Request_Cookie r name = inr cookie_value →
  securecookie_DecodeMulti name cookie_value (RediStore.Codecs s) = inr info →
  let k := RediStore.keyPrefix s +:+ SessionInfo.ID info in
  (Pool_Get k c).1 = (d, Some e) →
  is_redis_Nil e = false →
  RediStore.New s r name c
  = (Returns (Session.mk (SessionInfo.ID info) ∅ (RediStore.Options s) true name,
              Some e),
     (Pool_Get k c).2).
Proof.
  intros Hcookie Hdecode k Hget Hnil.
  rewrite (New_after_decode _ _ _ _ _ _ Hcookie Hdecode).
  set (fresh := Session.mk (SessionInfo.ID info) ∅ (RediStore.Options s) true name).
  rewrite (load_without_record s fresh c _ _ Hget) by (left; by eexists).
  by rewrite Hnil.
Qed.

(** X11. When the cookie decodes, the record loads without error, and
    the entry ["created_time"] of the loaded payload is equal to the
    creation time of the envelope, [New] returns without error the
    loaded session, payload included, with [IsNew] cleared. *)
Theorem New_same_creation_time s r name c cookie_value info loaded c' :
  Request_Cookie r name = inr cookie_value →
  securecookie_DecodeMulti name cookie_value (RediStore.Codecs s) = inr info →
  RediStore.load s
    (Session.mk (SessionInfo.ID info) ∅ (RediStore.Options s) true name) c
  = ((loaded, true, None), c') →
  iface_neq (index (Session.Values loaded) (KString "created_time"))
    (SessionInfo.CreateTime info) = Some false →
  ∃ session,
    RediStore.New s r name c = (Returns (session, None), c') ∧
    Session.IsNew session = false ∧
    Session.Values session = Session.Values loaded ∧
    Session.ID session = Session.ID loaded ∧
    Session.Options session = Session.Options loaded.
Proof.
  intros Hcookie Hdecode Hload Heq. eexists.
  rewrite (New_after_decode _ _ _ _ _ _ Hcookie Hdecode), Hload. simpl.
  rewrite Heq. by split_and!.
Qed.

(** X12. [New] never writes and never deletes: it sends nothing, or one
    [Get] under the prefix of the store. *)
Theorem New_only_reads s r name c :
  let c' := (RediStore.New s r name c).2 in
  writes c' = writes c ∧
  (calls c' = calls c ∨
   ∃ id, calls c' = calls c ++ [CmdGet (RediStore.keyPrefix s +:+ id)]).
Proof.
  intros c'. subst c'.
  assert (Hcalls :
    calls (RediStore.New s r name c).2 = calls c ∨
    ∃ id, calls (RediStore.New s r name c).2
          = calls c ++ [CmdGet (RediStore.keyPrefix s +:+ id)]).
  { destruct (Request_Cookie r name) as [e|v] eqn:Hcookie.
    { left. unfold RediStore.New. by rewrite Hcookie. }
    destruct (securecookie_DecodeMulti name v (RediStore.Codecs s)) as [e|info] eqn:Hd.
    { left. unfold RediStore.New. by rewrite Hcookie, Hd. }
    right. exists (SessionInfo.ID info).
    rewrite (New_after_decode _ _ _ _ _ _ Hcookie Hd).
    pose proof (load_calls s
      (Session.mk (SessionInfo.ID info) ∅ (RediStore.Options s) true name) c) as Hl.
    destruct (RediStore.load s _ c) as [[[session ok] err] c1]. simpl in Hl.
    destruct (is_nil err && ok); [|done].
    by destruct (iface_neq _ _) as [[|]|]. }
  split; [|done]. unfold writes.
  destruct Hcalls as [->|[id ->]]; [done|].
  rewrite List.filter_app. simpl. by rewrite app_nil_r.
Qed.

(** X13. Under the JSON serializer, a record that [json.Unmarshal]
    rejects gives a session with the ID of the envelope, an empty
    payload and [IsNew] set, next to the error of [json.Unmarshal]. *)
Theorem New_corrupt_record s r name c cookie_value info data m e :
  RediStore.serializer s = JSONSerializer.it →
  Request_Cookie r name = inr cookie_value →
  securecookie_DecodeMulti name cookie_value (RediStore.Codecs s) = inr info →
  let k := RediStore.keyPrefix s +:+ SessionInfo.ID info in
  (Pool_Get k c).1 = (Some data, None) →
  json_Unmarshal data ∅ = (m, Some e) →
  RediStore.New s r name c
  = (Returns (Session.mk (SessionInfo.ID info) ∅ (RediStore.Options s) true name,
              Some e),
     (Pool_Get k c).2).
Proof.
  intros Hjson Hcookie Hdecode k Hget Hdata.
  rewrite (New_after_decode _ _ _ _ _ _ Hcookie Hdecode).
  unfold RediStore.load. simpl. fold k.
  destruct (Pool_Get k c) as [[d' e'] c']. simpl in Hget. injection Hget as -> ->.
  rewrite Hjson. simpl.
  unfold JSONSerializer.Deserialize, JSONSerializer.DeserializeData.
  by rewrite Hdata.
Qed.

(** X14. [New] does not panic on a request whose cookie, if it decodes,
    carries a string as creation time, which is what [Save] puts in a
    cookie when it stamps the payload itself. *)
Theorem New_returns_on_string_creation_time s r name c :
  (∀ cookie_value info,
     Request_Cookie r name = inr cookie_value →
     securecookie_DecodeMulti name cookie_value (RediStore.Codecs s) = inr info →
     ∃ t, SessionInfo.CreateTime info = VString t) →
  ∃ res, (RediStore.New s r name c).1 = Returns res.
Proof.
  intros Htime.
  destruct (Request_Cookie r name) as [e|v] eqn:Hcookie.
  { eexists. unfold RediStore.New. by rewrite Hcookie. }
  destruct (securecookie_DecodeMulti name v (RediStore.Codecs s)) as [e|info] eqn:Hd.
  { eexists. unfold RediStore.New. by rewrite Hcookie, Hd. }
  destruct (Htime v info eq_refl Hd) as [t Ht].
  rewrite (New_after_decode _ _ _ _ _ _ Hcookie Hd), Ht.
  destruct (RediStore.load s _ c) as [[[session ok] err] c1].
  destruct (is_nil err && ok); [|by eexists].
  destruct (iface_neq _ (VString t)) as [[|]|] eqn:Hneq; [by eexists..|].
  exfalso. unfold iface_neq in Hneq.
  by destruct (index (Session.Values session) (KString "created_time")).
Qed.
End New_cases.

Lemma New_record_absent_witness :
  Double.New Double.store Double.request_S1 "sid" (Double.conn Double.empty_server)
  = (Returns (Session.mk "S1" ∅ (RediStore.Options Double.store) true "sid", None),
     mkConn Double.empty_server [CmdGet "session_S1"]).
Proof.
  unfold Double.New.
  apply (@New_record_absent Double.libraries Double.Server Double.cmdable Double.store
           Double.request_S1 "sid" (Double.conn Double.empty_server)
           "S1|20200101000000" (SessionInfo.mk "S1" (VString "20200101000000")) None);
    [reflexivity | reflexivity | left; reflexivity].
Defined.

Lemma New_transport_error_witness :
  Double.New Double.store Double.request_S1 "sid" (Double.conn Double.broken_server)
  = (Returns (Session.mk "S1" ∅ (RediStore.Options Double.store) true "sid",
              Some (ErrExternal "dial tcp: connection refused")),
     mkConn Double.broken_server [CmdGet "session_S1"]).
Proof.
  unfold Double.New.
  apply (@New_transport_error Double.libraries Double.Server Double.cmdable Double.store
           Double.request_S1 "sid" (Double.conn Double.broken_server)
           "S1|20200101000000" (SessionInfo.mk "S1" (VString "20200101000000")) None);
    reflexivity.
Defined.

Lemma New_same_creation_time_witness :
  ∃ session,
    Double.New Double.store Double.request_S1 "sid"
      (Double.conn Fixture.server_of_stamped)
    = (Returns (session, None), mkConn Fixture.server_of_stamped [CmdGet "session_S1"]) ∧
    Session.IsNew session = false ∧
    Session.Values session = Double.stamped ∧
    Session.ID session = "S1" ∧
    Session.Options session = RediStore.Options Double.store.
Proof.
  unfold Double.New.
  apply (@New_same_creation_time Double.libraries Double.Server Double.cmdable
           Double.store Double.request_S1 "sid" (Double.conn Fixture.server_of_stamped)
           "S1|20200101000000"
           (SessionInfo.mk "S1" (VString "20200101000000"))
           (Session.mk "S1" Double.stamped (RediStore.Options Double.store) true "sid")
           (mkConn Fixture.server_of_stamped [CmdGet "session_S1"]));
    vm_compute; reflexivity.
Defined.

Lemma New_corrupt_record_witness :
  Double.New Double.store Double.request_S1 "sid"
    (Double.conn Fixture.server_with_garbage)
  = (Returns (Session.mk "S1" ∅ (RediStore.Options Double.store) true "sid",
              Some (ErrExternal "flat: malformed input")),
     mkConn Fixture.server_with_garbage [CmdGet "session_S1"]).
Proof.
  unfold Double.New.
  rewrite (@New_corrupt_record Double.libraries Double.Server Double.cmdable Double.store
             Double.request_S1 "sid" (Double.conn Fixture.server_with_garbage)
             "S1|20200101000000" (SessionInfo.mk "S1" (VString "20200101000000"))
             ["003"%byte; "001"%byte] ∅ (ErrExternal "flat: malformed input")).
  - vm_compute. reflexivity.
  - reflexivity.
  - reflexivity.
  - vm_compute. reflexivity.
  - vm_compute. reflexivity.
  - vm_compute. reflexivity.
Defined.

Lemma New_returns_on_string_creation_time_witness :
  ∃ res,
    (Double.New Double.store Double.request_S1 "sid"
       (Double.conn Double.server_of_user)).1 = Returns res.
Proof.
  unfold Double.New.
  apply (@New_returns_on_string_creation_time Double.libraries Double.Server
           Double.cmdable Double.store Double.request_S1 "sid"
           (Double.conn Double.server_of_user)).
  intros v info _ Hd. simpl in Hd.
  destruct (Double.split_bar v) as [[id t]|]; [|discriminate Hd].
  injection Hd as <-. by exists t.
Defined.

(** ** [Save], case by case *)

Section Save_cases.
Context `{!Libraries} {R : Type} `{!Cmdable R}.
Implicit Types (s : RediStore.t) (session : Session.t) (c : Conn R).

(** The session after [Save]. *)
Lemma Save_session s now fresh_id r w session c :
  session_of (RediStore.Save s now fresh_id r w session c)
  = if (Options.MaxAge (Session.Options session) <=? 0)%Z
    then session
    else prepared now fresh_id session.
Proof.
  destruct (Z.leb_spec (Options.MaxAge (Session.Options session)) 0) as [Hage|Hage].
  - rewrite Save_nonpositive by done. by destruct (Pool_Del _ c) as [[e|] c'].
  - rewrite Save_positive by done. simpl.
    destruct (RediStore.save s _ c) as [[e|] c']; [done|].
    by destruct (securecookie_EncodeMulti _ _ _).
Qed.

(** X15. When the maximum age of the session is positive, the record is
    accepted, the [Set] succeeds and the envelope is encoded, [Save]
    returns no error, has sent that one [Set] under the prefixed ID with
    the maximum age of the session as expiration, and has handed one
    cookie to the response: the token, under the options of the
    session. *)
Theorem Save_stores_and_sets_cookie s now fresh_id r w session c b srv token :
  (0 < Options.MaxAge (Session.Options session))%Z →
  let p := prepared now fresh_id session in
  let k := RediStore.keyPrefix s +:+ Session.ID p in
  let d := seconds (Options.MaxAge (Session.Options session)) in
  Serialize (RediStore.serializer s) p = inr b →
  (RediStore.maxLength s = 0 ∨ len b ≤ RediStore.maxLength s)%Z →
  redis_Set k b d (server c) = (None, srv) →
  securecookie_EncodeMulti (Session.Name p)
    (SessionInfo.mk (Session.ID p) (index (Session.Values p) (KString "created_time")))
    (RediStore.Codecs s) = inr token →
  RediStore.Save s now fresh_id r w session c
  = ((w ++ [NewCookie (Session.Name session) token (Session.Options session)], p, None),
     mkConn srv (calls c ++ [CmdSet k b d])).
Proof.
  intros Hage p k d Hb Hlen Hset Htoken. rewrite Save_positive by done. fold p.
  cbv zeta. rewrite (save_expiration _ _ _ b) by done.
  subst p. rewrite prepared_Options.
  destruct (Z.eqb_spec (Options.MaxAge (Session.Options session)) 0); [lia|].
  unfold Pool_Set. fold k d. rewrite Hset. rewrite Htoken.
  unfold SetCookie, Session.Name.
  by destruct session; unfold prepared; simpl;
    destruct (String.eqb _ _); simpl; destruct (_ !! _).
Qed.

(** X16. When the record was written but the envelope cannot be encoded,
    [Save] returns the error of the encoding and sets no cookie; the
    [Set] has been sent and the record stays on the server. *)
Theorem Save_written_without_cookie s now fresh_id r w session c b srv e :
  (0 < Options.MaxAge (Session.Options session))%Z →
  let p := prepared now fresh_id session in
  let k := RediStore.keyPrefix s +:+ Session.ID p in
  let d := seconds (Options.MaxAge (Session.Options session)) in
  Serialize (RediStore.serializer s) p = inr b →
  (RediStore.maxLength s = 0 ∨ len b ≤ RediStore.maxLength s)%Z →
  redis_Set k b d (server c) = (None, srv) →
  securecookie_EncodeMulti (Session.Name p)
    (SessionInfo.mk (Session.ID p) (index (Session.Values p) (KString "created_time")))
    (RediStore.Codecs s) = inl e →
  RediStore.Save s now fresh_id r w session c
  = ((w, p, Some e), mkConn srv (calls c ++ [CmdSet k b d])).
Proof.
  intros Hage p k d Hb Hlen Hset Htoken. rewrite Save_positive by done. fold p.
  cbv zeta. rewrite (save_expiration _ _ _ b) by done.
  subst p. rewrite prepared_Options.
  destruct (Z.eqb_spec (Options.MaxAge (Session.Options session)) 0); [lia|].
  unfold Pool_Set. fold k d. by rewrite Hset, Htoken.
Qed.

(** X17. Whatever its outcome, [Save] removes no entry of the payload
    and changes none but ["created_time"], which it only adds; with a
    positive maximum age the payload has a creation time afterwards; an
    ID that is not empty, the options, the name and [IsNew] are kept. *)
Theorem Save_keeps_payload s now fresh_id r w session c :
  let after := session_of (RediStore.Save s now fresh_id r w session c) in
  Session.Values session ⊆ Session.Values after ∧
  (∀ k, k ≠ KString "created_time" →
        Session.Values after !! k = Session.Values session !! k) ∧
  ((0 < Options.MaxAge (Session.Options session))%Z →
   is_Some (Session.Values after !! KString "created_time")) ∧
  (Session.ID session ≠ "" → Session.ID after = Session.ID session) ∧
  Session.Options after = Session.Options session ∧
  Session.Name after = Session.Name session ∧
  Session.IsNew after = Session.IsNew session.
Proof.
  intros after. subst after. rewrite Save_session.
  destruct (Z.leb_spec (Options.MaxAge (Session.Options session)) 0) as [Hage|Hage].
  { split_and!; try done. lia. }
  assert (Hid : Session.ID session ≠ "" →
                Session.ID (prepared now fresh_id session) = Session.ID session).
  { intros Hne. unfold prepared.
    destruct (String.eqb_spec (Session.ID session) ""); [done|].
    by destruct (Session.Values session !! KString "created_time"). }
  assert (Hrest : Session.Name (prepared now fresh_id session) = Session.Name session ∧
                  Session.IsNew (prepared now fresh_id session) = Session.IsNew session).
  { unfold prepared. destruct (String.eqb _ _); simpl;
      by destruct (Session.Values session !! KString "created_time"). }
  rewrite prepared_Options, prepared_Values.
  destruct (Session.Values session !! KString "created_time") as [v|] eqn:Hv.
  - split_and!;
      [done | done | by intros _; rewrite Hv | exact Hid | done
      | apply Hrest | apply Hrest].
  - split_and!;
      [by apply insert_subseteq | by intros k Hk; rewrite lookup_insert_ne
      | by intros _; rewrite lookup_insert_eq | exact Hid | done
      | apply Hrest | apply Hrest].
Qed.

(** X18. [Save] sends at most one command and never a [Get]: one [Del]
    under the prefixed ID when the maximum age is at most 0; otherwise
    nothing, or one [Set] of the serialized session under its prefixed
    ID with the maximum age as expiration. *)
Theorem Save_commands s now fresh_id r w session c :
  let p := prepared now fresh_id session in
  let age := Options.MaxAge (Session.Options session) in
  ∃ l,
    calls (conn_of (RediStore.Save s now fresh_id r w session c)) = calls c ++ l ∧
    ((age ≤ 0)%Z ∧ l = [CmdDel (RediStore.keyPrefix s +:+ Session.ID session)] ∨
     (0 < age)%Z ∧
     (l = [] ∨
      ∃ b, Serialize (RediStore.serializer s) p = inr b ∧
           l = [CmdSet (RediStore.keyPrefix s +:+ Session.ID p) b (seconds age)])).
Proof.
  intros p age.
  destruct (Z.leb_spec age 0) as [Hage|Hage].
  - exists [CmdDel (RediStore.keyPrefix s +:+ Session.ID session)].
    split; [|by left]. rewrite Save_nonpositive by done.
    pose proof (Pool_Del_calls (RediStore.keyPrefix s +:+ Session.ID session) c).
    by destruct (Pool_Del _ c) as [[e|] c'].
  - rewrite Save_positive by done. fold p. cbv zeta.
    assert (Hsave :
      ∃ l, calls (RediStore.save s p c).2 = calls c ++ l ∧
           (l = [] ∨
            ∃ b, Serialize (RediStore.serializer s) p = inr b ∧
                 l = [CmdSet (RediStore.keyPrefix s +:+ Session.ID p) b (seconds age)])).
    { unfold RediStore.save.
      destruct (Serialize (RediStore.serializer s) p) as [e|b] eqn:Hb.
      { exists []. by rewrite app_nil_r; split; [|left]. }
      destruct (negb _ && _).
      { exists []. by rewrite app_nil_r; split; [|left]. }
      subst p. rewrite prepared_Options. fold age.
      destruct (Z.eqb_spec age 0); [lia|].
      eexists. split; [apply Pool_Set_calls|]. right. by exists b. }
    destruct Hsave as (l & Hcalls & Hl). exists l. split; [|by right].
    destruct (RediStore.save s p c) as [[e|] c']; [done|].
    by destruct (securecookie_EncodeMulti _ _ _).
Qed.
End Save_cases.

(** ** How the calls compose *)

Section composition.
Context `{!Libraries} {R : Type} `{!Cmdable R}.
Implicit Types (s : RediStore.t) (session : Session.t) (c : Conn R).

(** X19. A session that [Save] has stored comes back. Under the JSON
    serializer, with a codec that round-trips up to a widening that
    keeps strings, a server that reads back what was written and a
    cookie codec that decodes the token of this envelope, if [Save] of a
    session of positive maximum age, whose creation time is absent or a
    string, returns no error, then it has set one cookie, and [New] on a
    request that brings its token back returns without error a session
    that is not new, with the same ID and with the saved payload, each
    value widened. *)
Theorem Save_then_New_restores (widen : value → value)
    s now fresh_id r w session c w' saved c' :
  RediStore.serializer s = JSONSerializer.it →
  json_round_trips widen →
  (∀ t, widen (VString t) = VString t) →
  reads_back_writes →
  (0 < Options.MaxAge (Session.Options session))%Z →
  (∀ v, Session.Values session !! KString "created_time" = Some v → ∃ t, v = VString t) →
  RediStore.Save s now fresh_id r w session c = ((w', saved, None), c') →
  (∀ token,
     securecookie_EncodeMulti (Session.Name saved)
       (SessionInfo.mk (Session.ID saved)
          (index (Session.Values saved) (KString "created_time")))
       (RediStore.Codecs s) = inr token →
     securecookie_DecodeMulti (Session.Name saved) token (RediStore.Codecs s)
     = inr (SessionInfo.mk (Session.ID saved)
              (index (Session.Values saved) (KString "created_time")))) →
  ∃ token,
    w' = w ++ [NewCookie (Session.Name session) token (Session.Options session)] ∧
    ∀ r', Request_Cookie r' (Session.Name session) = inr token →
      ∃ back c'',
        RediStore.New s r' (Session.Name session) c' = (Returns (back, None), c'') ∧
        Session.IsNew back = false ∧
        Session.ID back = Session.ID saved ∧
        Session.Values back = widen <$> Session.Values saved ∧
        Session.Options back = RediStore.Options s.
Proof.
  intros Hjson Hcodec Hstr Hserver Hage Htime Hsave Hcookie.
  rewrite Save_positive in Hsave by done. cbv zeta in Hsave.
  set (p := prepared now fresh_id session) in *.
  assert (Hname : Session.Name p = Session.Name session).
  { unfold p, prepared. destruct (String.eqb _ _); simpl;
      by destruct (Session.Values session !! KString "created_time"). }
  assert (Hopts : Session.Options p = Session.Options session)
    by apply prepared_Options.
  assert (Hcreated : ∃ t, Session.Values p !! KString "created_time" = Some (VString t)).
  { unfold p. rewrite prepared_Values.
    destruct (Session.Values session !! KString "created_time") as [v|] eqn:Hv.
    - destruct (Htime v eq_refl) as [t ->]. by exists t.
    - exists now. by rewrite lookup_insert_eq. }
  destruct Hcreated as [t Ht].
  unfold RediStore.save in Hsave. rewrite Hjson in Hsave. simpl in Hsave.
  destruct (JSONSerializer.Serialize p) as [e|b] eqn:Hb; [done|].
  destruct (negb _ && _); [done|].
  unfold Pool_Set in Hsave.
  destruct (redis_Set _ b _ (server c)) as [[e|] srv] eqn:Hset; [done|].
  destruct (securecookie_EncodeMulti _ _ _) as [e|token] eqn:Htoken; [done|].
  injection Hsave as <- <- <-.
  exists token. rewrite Hname, Hopts. split; [done|].
  intros r' Hr'.
  specialize (Hcookie token Htoken). rewrite Hname in Hcookie.
  rewrite (New_after_decode _ _ _ _ _ _ Hr' Hcookie). simpl.
  unfold RediStore.load. simpl. unfold Pool_Get. simpl.
  pose proof (Hserver _ _ _ _ _ Hset) as Hget.
  destruct (redis_Get _ srv) as [[d e] srv'] eqn:Hg. simpl in Hget.
  injection Hget as -> ->. rewrite Hjson. simpl.
  destruct (Serialize_payload p b Hb) as (m & Hm & Hmarshal).
  rewrite (JSON_Deserialize_overlays b (widen <$> m)) by by apply Hcodec.
  simpl. rewrite (right_id_L ∅ (∪)), kmap_fmap, Hm by apply _.
  unfold index. rewrite lookup_fmap, Ht. simpl. rewrite Hstr.
  unfold iface_neq. simpl. rewrite String.eqb_refl. simpl.
  eexists _, _. by split_and!.
Qed.

End composition.

(** ** The setters together *)

Lemma SetMaxAge_unfold (v : Z) (s : RediStore.t) :
  RediStore.SetMaxAge v s
  = RediStore.mk (with_maxAge v <$> RediStore.Codecs s)
      (Options.set_MaxAge v (RediStore.Options s))
      (RediStore.DefaultMaxAge s) (RediStore.maxLength s)
      (RediStore.keyPrefix s) (RediStore.serializer s).
Proof.
  pose proof (SetMaxAge_Codecs v s) as Hcodecs.
  unfold RediStore.SetMaxAge in *. simpl in Hcodecs. by rewrite Hcodecs.
Qed.

(** X21. Of two calls of [SetMaxAge] the last one decides: the store is
    the one the second call alone would have made. *)
Theorem SetMaxAge_last_wins (v1 v2 : Z) (s : RediStore.t) :
  RediStore.SetMaxAge v2 (RediStore.SetMaxAge v1 s) = RediStore.SetMaxAge v2 s.
Proof.
  rewrite !SetMaxAge_unfold. simpl. f_equal.
  rewrite <- list_fmap_compose. apply list_fmap_ext.
  by intros i [sc|impl] _.
Qed.

(** X22. Calls of two different setters can be made in either order:
    each setter leaves what the others set. *)
Theorem setters_commute (op1 op2 : setter) (s : RediStore.t) :
  same_setter op1 op2 = false →
  call (call s op1) op2 = call (call s op2) op1.
Proof.
  destruct op1 as [l1|p1|ss1|v1], op2 as [l2|p2|ss2|v2]; simpl; try done; intros _;
    rewrite ?SetMaxAge_unfold; unfold RediStore.SetMaxLength;
    repeat match goal with
           | |- context [(?l >=? 0)%Z] => destruct (l >=? 0)%Z
           end;
    by rewrite ?SetMaxAge_unfold.
Qed.

Lemma setters_commute_witness :
  call (call Double.store (CallSetMaxAge 60)) (CallSetMaxLength 10)
  = call (call Double.store (CallSetMaxLength 10)) (CallSetMaxAge 60).
Proof. apply (setters_commute (CallSetMaxAge 60) (CallSetMaxLength 10)). reflexivity. Defined.

Section reconfigured.
Context `{!Libraries} {R : Type} `{!Cmdable R}.
Implicit Types (s : RediStore.t) (session : Session.t) (c : Conn R).

(** X23. After [SetMaxAge v] with [v] at most 0, the session [New]
    makes for a request without the cookie has maximum age [v], and
    [Save] of that session stores nothing: it sends one [Del] and no
    [Set]. *)
Theorem SetMaxAge_nonpositive_sessions_are_not_stored s v now fresh_id r w name c e :
  (v ≤ 0)%Z →
  Request_Cookie r name = inl e →
  let s' := RediStore.SetMaxAge v s in
  ∃ session,
    RediStore.New s' r name c = (Returns (session, None), c) ∧
    Options.MaxAge (Session.Options session) = v ∧
    let res := RediStore.Save s' now fresh_id r w session c in
    calls (conn_of res) = calls c ++ [CmdDel (RediStore.keyPrefix s +:+ "")] ∧
    writes (conn_of res) = writes c.
Proof.
  intros Hv Hcookie s'. eexists. split_and!.
  - unfold RediStore.New. by rewrite Hcookie.
  - done.
  - cbv zeta. rewrite Save_nonpositive by done. simpl.
    pose proof (Pool_Del_calls (RediStore.keyPrefix s +:+ "") c) as Hcalls.
    pose proof (Pool_Del_writes (RediStore.keyPrefix s +:+ "") c) as Hwrites.
    by destruct (Pool_Del _ c) as [[err|] c'].
Qed.
End reconfigured.

Lemma Save_stores_and_sets_cookie_witness :
  let res := Double.Save Double.store Double.clock Double.fresh_id [] []
               Fixture.visitor (Double.conn Double.empty_server) in
  error_of res = None ∧
  Cmd_keys (calls (conn_of res)) = ["session_MFRGGZDFMZTWQ2LK"] ∧
  Cookie.Value <$> response_of res = ["MFRGGZDFMZTWQ2LK|20240101120000"] ∧
  Cookie.MaxAge <$> response_of res = [1800%Z].
Proof.
  unfold Double.Save. cbv zeta.
  erewrite (@Save_stores_and_sets_cookie Double.libraries Double.Server Double.cmdable
              Double.store Double.clock Double.fresh_id [] [] Fixture.visitor
              (Double.conn Double.empty_server));
    cycle 1;
    [reflexivity | vm_compute; reflexivity | right; vm_compute; discriminate
    | vm_compute; reflexivity | vm_compute; reflexivity | ].
  split_and!; vm_compute; reflexivity.
Defined.

Lemma Save_written_without_cookie_witness :
  let res := Double.Save Fixture.store_without_keys Double.clock Double.fresh_id [] []
               Fixture.visitor (Double.conn Double.empty_server) in
  error_of res = Some (ErrExternal "securecookie: no codecs provided") ∧
  Cmd_keys (calls (conn_of res)) = ["session_MFRGGZDFMZTWQ2LK"] ∧
  response_of res = [].
Proof.
  unfold Double.Save. cbv zeta.
  erewrite (@Save_written_without_cookie Double.libraries Double.Server Double.cmdable
              Fixture.store_without_keys Double.clock Double.fresh_id [] []
              Fixture.visitor (Double.conn Double.empty_server));
    cycle 1;
    [reflexivity | vm_compute; reflexivity | right; vm_compute; discriminate
    | vm_compute; reflexivity | vm_compute; reflexivity | ].
  split_and!; vm_compute; reflexivity.
Defined.

Lemma Save_then_New_restores_witness :
  let res := Double.Save Double.store Double.clock Double.fresh_id [] []
               Fixture.visitor (Double.conn Double.empty_server) in
  ∃ token,
    response_of res = [NewCookie "sid" token (Session.Options Fixture.visitor)] ∧
    ∀ r', Request_Cookie r' "sid" = inr token →
      ∃ back c'',
        Double.New Double.store r' "sid" (conn_of res) = (Returns (back, None), c'') ∧
        Session.IsNew back = false ∧
        Session.Values back = id <$> Session.Values (session_of res).
Proof.
  intros res.
  destruct (@Save_then_New_restores Double.libraries Double.Server Double.cmdable id
              Double.store Double.clock Double.fresh_id [] [] Fixture.visitor
              (Double.conn Double.empty_server)
              (response_of res) (session_of res) (conn_of res))
    as (token & Hresponse & Hnew).
  - reflexivity.
  - apply Double_json_round_trips.
  - done.
  - apply Double_reads_back_writes.
  - reflexivity.
  - intros v Hv. vm_compute in Hv. discriminate Hv.
  - vm_compute. reflexivity.
  - intros token Htoken. vm_compute in Htoken. injection Htoken as <-.
    vm_compute. reflexivity.
  - exists token. split; [exact Hresponse|].
    intros r' Hr'. destruct (Hnew r' Hr') as (back & c'' & H1 & H2 & _ & H4 & _).
    exists back, c''. split_and!; [exact H1|exact H2|exact H4].
Defined.

Lemma SetMaxAge_nonpositive_sessions_are_not_stored_witness :
  ∃ session,
    Double.New (RediStore.SetMaxAge 0 Double.store) [] "sid"
      (Double.conn Double.empty_server)
    = (Returns (session, None), Double.conn Double.empty_server) ∧
    Options.MaxAge (Session.Options session) = 0%Z ∧
    let res := Double.Save (RediStore.SetMaxAge 0 Double.store) Double.clock
                 Double.fresh_id [] [] session (Double.conn Double.empty_server) in
    calls (conn_of res) = [CmdDel "session_"] ∧
    writes (conn_of res) = [].
Proof.
  unfold Double.New, Double.Save.
  apply (@SetMaxAge_nonpositive_sessions_are_not_stored Double.libraries Double.Server
           Double.cmdable Double.store 0 Double.clock Double.fresh_id [] [] "sid"
           (Double.conn Double.empty_server)
           (ErrExternal "http: named cookie not present")); [lia|reflexivity].
Defined.

Section defaults.
Context `{!Libraries} {R : Type} `{!Cmdable R}.
Implicit Types (s : RediStore.t) (session : Session.t) (c : Conn R).

(** X24. With the store [NewRedisStoreWithPool] makes, the session [New]
    returns for a request without cookie, once the handler has put any
    values in it, is saved under ["session_"] and the fresh ID, to
    expire after 3000 days (259200000 seconds, which fits a duration),
    when its JSON record is at most 4096 bytes long; a longer record is
    refused, nothing is sent and no cookie is set. *)
Theorem default_store_lifetime keyPairs now fresh_id r w name c e fresh vals b :
  let s := RediStore.NewRedisStoreWithPool keyPairs in
  Request_Cookie r name = inl e →
  (RediStore.New s r name c).1 = Returns (fresh, None) →
  let session := Session.set_Values vals fresh in
  let p := prepared now fresh_id session in
  JSONSerializer.Serialize p = inr b →
  let res := RediStore.Save s now fresh_id r w session c in
  ((len b ≤ 4096)%Z →
   calls (conn_of res)
   = calls c ++ [CmdSet ("session_" +:+ fresh_id) b (259200000 * 1000000000)]) ∧
  ((len b > 4096)%Z →
   error_of res = Some ErrTooBig ∧ conn_of res = c ∧ response_of res = w).
Proof.
  intros s Hcookie Hnew session p Hb res. subst res.
  unfold RediStore.New in Hnew. rewrite Hcookie in Hnew. simpl in Hnew.
  injection Hnew as <-.
  assert (Hid : Session.ID p = fresh_id).
  { unfold p, prepared. simpl. destruct (vals !! KString "created_time"); reflexivity. }
  assert (Hopts : Options.MaxAge (Session.Options p) = sessionExpire).
  { unfold p. rewrite prepared_Options. reflexivity. }
  rewrite Save_positive by reflexivity. fold p. cbv zeta. split; intros Hlen.
  - rewrite (save_expiration s p c b Hb (or_intror Hlen)).
    rewrite Hid, Hopts.
    pose proof (Pool_Set_calls (R := R) ("session_" +:+ fresh_id) b
                  (259200000 * 1000000000) c) as Hcalls.
    change (RediStore.keyPrefix s) with "session_".
    change (seconds _) with (259200000 * 1000000000)%Z.
    clearbody p s.
    destruct (Pool_Set _ b _ c) as [[err|] c']; [exact Hcalls|].
    destruct (securecookie_EncodeMulti _ _ _); exact Hcalls.
  - assert (Hmax : RediStore.maxLength s ≠ 0%Z) by discriminate.
    rewrite (save_too_big s p c b Hmax Hb Hlen).
    split_and!; reflexivity.
Qed.

(** X25. After [SetMaxLength 0] the length of a record is not checked:
    [Save] of a session of positive maximum age sends the [Set] of
    whatever the serializer returns. *)
Theorem SetMaxLength_zero_lifts_bound s now fresh_id r w session c b :
  (0 < Options.MaxAge (Session.Options session))%Z →
  let p := prepared now fresh_id session in
  Serialize (RediStore.serializer s) p = inr b →
  let res := RediStore.Save (RediStore.SetMaxLength 0 s) now fresh_id r w session c in
  calls (conn_of res)
  = calls c ++ [CmdSet (RediStore.keyPrefix s +:+ Session.ID p) b
                  (seconds (Options.MaxAge (Session.Options session)))].
Proof.
  intros Hage p Hb res. subst res.
  rewrite Save_positive by done. fold p. cbv zeta.
  rewrite (save_expiration _ _ _ b) by (done || by left).
  subst p. rewrite prepared_Options.
  destruct (Z.eqb_spec (Options.MaxAge (Session.Options session)) 0); [lia|].
  pose proof (Pool_Set_calls
                (RediStore.keyPrefix s +:+ Session.ID (prepared now fresh_id session)) b
                (seconds (Options.MaxAge (Session.Options session))) c) as Hcalls.
  simpl. destruct (Pool_Set _ b _ c) as [[err|] c']; [done|].
  by destruct (securecookie_EncodeMulti _ _ _).
Qed.
End defaults.

Lemma default_store_lifetime_witness :
  let small := Session.set_Values Double.of_user (Fixture.new_session Double.store) in
  let big := Session.set_Values Fixture.album (Fixture.new_session Double.store) in
  let save session :=
    Double.Save Double.store Double.clock Double.fresh_id [] [] session
      (Double.conn Double.empty_server) in
  (∃ b, calls (conn_of (save small))
        = [CmdSet "session_MFRGGZDFMZTWQ2LK" b (259200000 * 1000000000)]) ∧
  error_of (save big) = Some ErrTooBig ∧
  conn_of (save big) = Double.conn Double.empty_server ∧
  response_of (save big) = [].
Proof.
  intros small big save. subst save. unfold Double.Save, Double.store. cbv beta.
  split.
  - eexists.
    eapply (@default_store_lifetime Double.libraries Double.Server Double.cmdable
              [String.list_byte_of_string "hash-key";
               String.list_byte_of_string "block-key"]
              Double.clock Double.fresh_id [] [] "sid" (Double.conn Double.empty_server)
              (ErrExternal "http: named cookie not present")
              (Fixture.new_session Double.store) Double.of_user).
    + reflexivity.
    + reflexivity.
    + vm_compute. reflexivity.
    + vm_compute. discriminate.
  - eapply (@default_store_lifetime Double.libraries Double.Server Double.cmdable
              [String.list_byte_of_string "hash-key";
               String.list_byte_of_string "block-key"]
              Double.clock Double.fresh_id [] [] "sid" (Double.conn Double.empty_server)
              (ErrExternal "http: named cookie not present")
              (Fixture.new_session Double.store) Fixture.album).
    + reflexivity.
    + reflexivity.
    + vm_compute. reflexivity.
    + vm_compute. reflexivity.
Defined.

Lemma SetMaxLength_zero_lifts_bound_witness :
  let res := Double.Save (RediStore.SetMaxLength 0 Double.small_store) Double.clock
               Double.fresh_id [] [] (Double.session 3600 Double.stamped)
               (Double.conn Double.empty_server) in
  calls (conn_of res)
  = [CmdSet "session_S1" (Double.record_of Double.stamped) (seconds 3600)].
Proof.
  unfold Double.Save.
  apply (@SetMaxLength_zero_lifts_bound Double.libraries Double.Server Double.cmdable
           Double.small_store Double.clock Double.fresh_id [] []
           (Double.session 3600 Double.stamped) (Double.conn Double.empty_server)
           (Double.record_of Double.stamped));
    [reflexivity | vm_compute; reflexivity].
Defined.
